(** * ycmd Python completer: a shallow embedding of
      [ycmd/completers/python/python_completer.py]

    The completer is a thin, stateful layer over the Jedi engine.  The
    embedding keeps its shape:

    - the four per-instance dictionaries of [PythonCompleter.__init__] are
      [gmap]s in a [Completer] record, threaded through a state-and-exception
      monad [M]; an exception leaves the state as the code left it;
    - everything the file imports but does not define (Jedi, the extra-conf
      store, [FindExecutable], [os.path.normpath], ...) is a field of one
      record [World], a section variable of the development;
    - the [while keep_traversing] loop of [_GoToDefinition] is a fixpoint on
      a round budget that answers [OutOfFuel] when the budget is used up;
    - what Jedi may leave out is an [option]: the module path, the line and
      the column of a definition are [None] for a builtin, and
      [definition.column + 1] then ends [_BuildGoToResponse] with Python's
      [TypeError].

    Two ghost fields of the state record what the code does to the outside:
    [next_env_id] numbers the environment objects constructed so far (object
    identity of a handle), and [effects] logs every value that a cache miss
    computes, at the assignment that stores it. *)

From Stdlib Require Import ZArith Ascii String List Lia DecimalString.
From stdpp Require Import base option list gmap strings.

(** ** Python values *)

(** Truthiness of a [str], and of a value that is a [str] or [None]. *)
Definition truthy (s : string) : bool :=
  match s with
  | EmptyString => false
  | String _ _ => true
  end.

Definition truthy_opt (o : option string) : bool :=
  match o with
  | Some s => truthy s
  | None => false
  end.

(** [sep.join( parts )]. *)
Fixpoint join (sep : string) (parts : list string) : string :=
  match parts with
  | [] => EmptyString
  | [p] => p
  | p :: rest => p +:+ sep +:+ join sep rest
  end.

(** The slice [s[ n: ]]. *)
Fixpoint slice_from (n : nat) (s : string) : string :=
  match n, s with
  | O, _ => s
  | S _, EmptyString => EmptyString
  | S n', String _ s' => slice_from n' s'
  end.

Definition newline : string := String "010"%char EmptyString.

(** The exceptions that end a method: the [RuntimeError]s the file raises,
    and the [TypeError] with which Python answers [None + 1]. *)
Inductive exn : Type :=
| RuntimeError (message : string)
| TypeError.

(** What a method that leaves the completer alone ends with. *)
Inductive result (A : Type) : Type :=
| Ok (a : A)
| Error (e : exn).

Arguments Ok {A} a.
Arguments Error {A} e.

(** ** What Jedi hands back *)

Record Param : Type := mkParam {
  param_description : string
}.

(** A Jedi [Definition] or [Completion] (both are [BaseDefinition]s).
    [module_path] is [None] for a builtin; [line] and [column] are [None]
    for a definition without a position (a builtin, a compiled object) and
    integers otherwise, [column] counting from 0; [params = None] stands
    for an object without a [params] attribute; [docstring] is the result
    of the [docstring()] call. *)
Record BaseDefinition : Type := mkDef {
  module_path : option string;
  line : option Z;
  column : option Z;
  name : string;
  description : string;
  def_type : string;
  docstring : string;
  params : option (list Param)
}.

(** A Jedi environment: the object identity [env_id] and what the completer
    reads from it. *)
Record EnvInfo : Type := mkEnvInfo {
  info_executable : string;
  info_sys_path : list string;
  info_version : list Z
}.

Record Environment : Type := mkEnv {
  env_id : nat;
  env_info : EnvInfo
}.

Definition executable (e : Environment) : string := info_executable (env_info e).
Definition get_sys_path (e : Environment) : list string := info_sys_path (env_info e).

(** The arguments of [jedi.Script( ... )]; a session opened at a
    definition gets the definition's line and column, which may be [None]. *)
Record Script : Type := mkScript {
  script_source : string;
  script_line : option Z;
  script_column : option Z;
  script_path : option string;
  script_sys_path : list string;
  script_environment : Environment
}.

(** ** Requests, settings and the extra-conf module *)

Record RequestData : Type := mkRequest {
  filepath : string;
  extra_conf_data : string;
  contents : string;
  line_num : Z;
  start_codepoint : Z
}.

(** The settings dictionary, read at its two keys.  [None] is an absent key
    (or, for [interpreter_path], the value [None]). *)
Record Settings : Type := mkSettings {
  interpreter_path : option string;
  sys_path : option (list string)
}.

(** An extra-conf module with its two optional hooks,
    [Settings( language, filename, client_data )] and
    [PythonSysPath( **settings )].  A hook is a function of its arguments
    and answers with a dictionary of its own at every call. *)
Record ExtraConfModule : Type := mkModule {
  module_file : string;
  SettingsHook : option (string -> string -> string -> option Settings);
  PythonSysPathHook : option (Settings -> list string)
}.

(** Everything the file imports and calls. *)
Record World : Type := mkWorld {
  python_binary_path : string;
  ModuleForSourceFile : string -> option ExtraConfModule;
  ExpandVariablesInPath : string -> string;
  FindExecutable : string -> option string;
  normpath : string -> string;
  get_default_environment : EnvInfo;
  create_environment : string -> EnvInfo;
  GetFileContents : RequestData -> string -> string;
  completions : Script -> list BaseDefinition;
  goto_assignments : Script -> list BaseDefinition;
  goto_definitions : Script -> list BaseDefinition;
  usages : Script -> list BaseDefinition
}.

(** ** Responses *)

Record GoTo : Type := mkGoTo {
  goto_filepath : option string;
  goto_line_num : option Z;
  goto_column_num : Z;
  goto_description : option string
}.

Inductive Response : Type :=
| GoToOne (location : GoTo)
| GoToMany (locations : list GoTo)
| DisplayMessage (message : string)
| DetailedInfo (text : string).

(** Modelled from the spec: [ycmd.responses] is not among the sources.  The
    spec lists the shapes it builds: a go-to location made of path, line,
    column and an optional description; [DisplayMessageResponse{message}];
    [DetailedInfoResponse{text}]. *)
Definition BuildGoToResponse (path : option string) (line_num : option Z)
    (column_num : Z) (descr : option string) : GoTo :=
  mkGoTo path line_num column_num descr.

Definition BuildDisplayMessageResponse (text : string) : Response :=
  DisplayMessage text.

Definition BuildDetailedInfoResponse (text : string) : Response :=
  DetailedInfo text.

(** ** Completion candidates *)

Record Location : Type := mkLocation {
  loc_filepath : string;
  loc_line_num : Z;
  loc_column_num : Z
}.

(** The [extra_data] field of a candidate: the Jedi completion object until
    the candidate is detailed, a plain dictionary (with or without a
    ['location'] key) afterwards. *)
Inductive ExtraData : Type :=
| JediObject (completion : BaseDefinition)
| PlainDict (location : option Location).

Record Candidate : Type := mkCandidate {
  insertion_text : string;
  extra_menu_info : option string;
  detailed_info : option string;
  kind : option string;
  extra_data : ExtraData
}.

(** Modelled from the spec: [responses.BuildCompletionData] is not among the
    sources; the spec's [CompletionData] record, built here from an insertion
    text and an extra-data value, the other fields unset. *)
Definition BuildCompletionData (text : string) (extra : ExtraData) : Candidate :=
  mkCandidate text None None None extra.

(** ** The completer's state and its monad *)

(** What a cache miss computed: the settings, the environment or the search
    path of a request key (file path and client data), or the environment
    object of an interpreter key. *)
Inductive Event : Type :=
| SettingsResolved (key : string * string)
| EnvironmentResolved (key : string * string)
| EnvironmentConstructed (key : option string)
| SysPathComputed (key : string * string).

#[global] Instance Event_eq_dec : EqDecision Event.
Proof. solve_decision. Defined.

Record Completer : Type := mkCompleter {
  _settings_for_file : gmap (string * string) Settings;
  _environment_for_file : gmap (string * string) Environment;
  _environment_for_interpreter_path : gmap (option string) Environment;
  _sys_path_for_file : gmap (string * string) (list string);
  next_env_id : nat;
  effects : list Event
}.

(** [PythonCompleter.__init__]. *)
Definition __init__ : Completer :=
  mkCompleter ∅ ∅ ∅ ∅ 0 [].

Inductive outcome (A : Type) : Type :=
| Ret (a : A)
| Raise (e : exn)
| OutOfFuel.

Arguments Ret {A} a.
Arguments Raise {A} e.
Arguments OutOfFuel {A}.

Definition M (A : Type) : Type := Completer -> Completer * outcome A.

Definition ret {A} (a : A) : M A := fun s => (s, Ret a).

Definition raise {A} (e : exn) : M A := fun s => (s, Raise e).

Definition out_of_fuel {A} : M A := fun s => (s, OutOfFuel).

Definition bind {A B} (m : M A) (k : A -> M B) : M B :=
  fun s =>
    match m s with
    | (s', Ret a) => k a s'
    | (s', Raise e) => (s', Raise e)
    | (s', OutOfFuel) => (s', OutOfFuel)
    end.

Definition get : M Completer := fun s => (s, Ret s).

(** A call of a method that leaves the completer alone: its value is
    returned and its exception goes on. *)
Definition answer {A} (r : result A) : outcome A :=
  match r with
  | Ok a => Ret a
  | Error e => Raise e
  end.

Definition lift {A} (r : result A) : M A := fun s => (s, answer r).

Definition modify (f : Completer -> Completer) : M unit := fun s => (f s, Ret tt).

Notation "x <- m ;; k" := (bind m (fun x => k))
  (at level 100, m at next level, right associativity).
Notation "m ;;; k" := (bind m (fun _ => k))
  (at level 100, right associativity).

(** An assignment to a key of [_settings_for_file], without a note in the
    log. *)
Definition store_settings (key : string * string) (v : Settings) (s : Completer) : Completer :=
  mkCompleter (<[key := v]> (_settings_for_file s)) (_environment_for_file s)
    (_environment_for_interpreter_path s) (_sys_path_for_file s)
    (next_env_id s) (effects s).

(** The four assignments that end a cache miss, each with its note. *)
Definition cache_settings (key : string * string) (v : Settings) (s : Completer) : Completer :=
  mkCompleter (<[key := v]> (_settings_for_file s)) (_environment_for_file s)
    (_environment_for_interpreter_path s) (_sys_path_for_file s)
    (next_env_id s) (effects s ++ [SettingsResolved key]).

Definition cache_environment_for_file (key : string * string) (v : Environment)
    (s : Completer) : Completer :=
  mkCompleter (_settings_for_file s) (<[key := v]> (_environment_for_file s))
    (_environment_for_interpreter_path s) (_sys_path_for_file s)
    (next_env_id s) (effects s ++ [EnvironmentResolved key]).

Definition cache_environment (key : option string) (v : Environment)
    (s : Completer) : Completer :=
  mkCompleter (_settings_for_file s) (_environment_for_file s)
    (<[key := v]> (_environment_for_interpreter_path s)) (_sys_path_for_file s)
    (next_env_id s) (effects s ++ [EnvironmentConstructed key]).

Definition cache_sys_path (key : string * string) (v : list string)
    (s : Completer) : Completer :=
  mkCompleter (_settings_for_file s) (_environment_for_file s)
    (_environment_for_interpreter_path s) (<[key := v]> (_sys_path_for_file s))
    (next_env_id s) (effects s ++ [SysPathComputed key]).

(** A new environment object: the next identity, with what Jedi found. *)
Definition construct (info : EnvInfo) : M Environment :=
  fun s =>
    (mkCompleter (_settings_for_file s) (_environment_for_file s)
       (_environment_for_interpreter_path s) (_sys_path_for_file s)
       (S (next_env_id s)) (effects s),
     Ret (mkEnv (next_env_id s) info)).

(** ** The completer's methods *)

Section PythonCompleter.

Variable W : World.

Definition cache_key (request_data : RequestData) : string * string :=
  (filepath request_data, extra_conf_data request_data).

Definition default_settings : Settings :=
  mkSettings (Some (python_binary_path W)) None.

(** [_GetSettings]: the module's [Settings] hook when there is a module, it
    has the hook and the hook answers something other than [None]; the
    configured binary path otherwise. *)
Definition _GetSettings (module : option ExtraConfModule)
    (path client_data : string) : Settings :=
  match module with
  | Some m =>
      match SettingsHook m with
      | Some hook =>
          match hook "python" path client_data with
          | Some settings => settings
          | None => default_settings
          end
      | None => default_settings
      end
  | None => default_settings
  end.

(** [_SettingsForRequest]: the cached dictionary on a hit; on a miss the
    settings are computed, stored and returned. *)
Definition _SettingsForRequest (request_data : RequestData) : M Settings :=
  let path := filepath request_data in
  let client_data := extra_conf_data request_data in
  s <- get ;;
  match _settings_for_file s !! (path, client_data) with
  | Some settings => ret settings
  | None =>
      let module := ModuleForSourceFile W path in
      let settings := _GetSettings module path client_data in
      modify (cache_settings (path, client_data) settings) ;;;
      ret settings
  end.

(** The first half of [_EnvironmentForInterpreterPath]: a truthy path is
    expanded, searched and normalised, and the search failing raises; a
    falsy one ([None] or the empty string) is kept as it is.  The result is
    the cache key. *)
Definition resolve_interpreter_path (path : option string) : M (option string) :=
  match path with
  | Some p =>
      if truthy p then
        let resolved_interpreter_path :=
          FindExecutable W (ExpandVariablesInPath W p) in
        match resolved_interpreter_path with
        | Some r =>
            if truthy r then ret (Some (normpath W r))
            else raise (RuntimeError
                   ("Cannot find Python interpreter path " +:+ p +:+ "."))
        | None =>
            raise (RuntimeError
                   ("Cannot find Python interpreter path " +:+ p +:+ "."))
        end
      else ret path
  | None => ret path
  end.

(** What Jedi is asked for on a miss: the default environment when the key
    is falsy, an environment created from the path (taken as safe)
    otherwise. *)
Definition jedi_environment (key : option string) : EnvInfo :=
  match key with
  | Some p =>
      if truthy p then create_environment W p
      else get_default_environment W
  | None => get_default_environment W
  end.

(** [_EnvironmentForInterpreterPath]. *)
Definition _EnvironmentForInterpreterPath (path : option string) : M Environment :=
  key <- resolve_interpreter_path path ;;
  s <- get ;;
  match _environment_for_interpreter_path s !! key with
  | Some environment => ret environment
  | None =>
      environment <- construct (jedi_environment key) ;;
      modify (cache_environment key environment) ;;;
      ret environment
  end.

(** [_EnvironmentForRequest]. *)
Definition _EnvironmentForRequest (request_data : RequestData) : M Environment :=
  let path := filepath request_data in
  let client_data := extra_conf_data request_data in
  s <- get ;;
  match _environment_for_file s !! (path, client_data) with
  | Some environment => ret environment
  | None =>
      settings <- _SettingsForRequest request_data ;;
      environment <- _EnvironmentForInterpreterPath (interpreter_path settings) ;;
      modify (cache_environment_for_file (path, client_data) environment) ;;;
      ret environment
  end.

(** [_GetSysPath].  The working dictionary starts as [{ 'sys_path': [] }]
    and is updated with the cached settings, so when those carry a
    ['sys_path'] list the working dictionary holds that very list object and
    [extend] grows it inside the cache as well.  The settings of a request
    are held by value: a list object that a hook hands to several requests,
    and that [extend] would then grow for all of them, is beyond the
    model. *)
Definition _GetSysPath (request_data : RequestData) (environment : Environment)
    : M (list string) :=
  cached <- _SettingsForRequest request_data ;;
  let extended := default [] (sys_path cached) ++ get_sys_path environment in
  (match sys_path cached with
   | Some _ =>
       modify (store_settings (cache_key request_data)
                 (mkSettings (interpreter_path cached) (Some extended)))
   | None => ret tt
   end) ;;;
  let settings := mkSettings (Some (executable environment)) (Some extended) in
  match ModuleForSourceFile W (filepath request_data) with
  | Some m =>
      match PythonSysPathHook m with
      | Some hook => ret (hook settings)
      | None => ret extended
      end
  | None => ret extended
  end.

(** [_SysPathForFile]. *)
Definition _SysPathForFile (request_data : RequestData) (environment : Environment)
    : M (list string) :=
  let path := filepath request_data in
  let client_data := extra_conf_data request_data in
  s <- get ;;
  match _sys_path_for_file s !! (path, client_data) with
  | Some sys_path => ret sys_path
  | None =>
      sys_path <- _GetSysPath request_data environment ;;
      modify (cache_sys_path (path, client_data) sys_path) ;;;
      ret sys_path
  end.

(** [OnFileReadyToParse]: fills the caches, returns nothing. *)
Definition OnFileReadyToParse (request_data : RequestData) : M unit :=
  environment <- _EnvironmentForRequest request_data ;;
  _SysPathForFile request_data environment ;;;
  ret tt.

(** [_GetJediScript]: the session at the cursor; Jedi's columns start at 0. *)
Definition _GetJediScript (request_data : RequestData) : M Script :=
  let path := filepath request_data in
  let source := contents request_data in
  let line := line_num request_data in
  let column := (start_codepoint request_data - 1)%Z in
  environment <- _EnvironmentForRequest request_data ;;
  sys_path <- _SysPathForFile request_data environment ;;
  ret (mkScript source (Some line) (Some column) (Some path) sys_path environment).

(** [_GetJediScriptForDefinition]: the session at a definition's own
    position, in the environment and search path of the requesting file. *)
Definition _GetJediScriptForDefinition (request_data : RequestData)
    (definition : BaseDefinition) : M Script :=
  let path := module_path definition in
  let source := GetFileContents W request_data (default EmptyString path) in
  let line := line definition in
  let column := column definition in
  environment <- _EnvironmentForRequest request_data ;;
  sys_path <- _SysPathForFile request_data environment ;;
  ret (mkScript source line column path sys_path environment).


(** [_GetExtraData]: a location when the completion has a module path, a
    line and a column that are all truthy (neither [None] nor empty nor 0);
    the column is sent 1-based. *)
Definition _GetExtraData (completion : BaseDefinition) : ExtraData :=
  match module_path completion, line completion, column completion with
  | Some path, Some line_num, Some column_num =>
      if truthy path && negb (line_num =? 0)%Z && negb (column_num =? 0)%Z
      then PlainDict (Some (mkLocation path line_num (column_num + 1)%Z))
      else PlainDict None
  | _, _, _ => PlainDict None
  end.

(** [_BuildTypeInfo]: the description, then the signature rebuilt from
    [params]; reading [params] of an object that has none raises
    [AttributeError], which the method swallows. *)
Definition _BuildTypeInfo (definition : BaseDefinition) : string :=
  let type_info := description definition in
  match params definition with
  | Some ps =>
      type_info +:+
        ("(" +:+ join ", " (map (fun param => slice_from 6 (param_description param)) ps)
             +:+ ")")
  | None => type_info
  end.

(** [ComputeCandidatesInner]. *)
Definition ComputeCandidatesInner (request_data : RequestData) : M (list Candidate) :=
  script <- _GetJediScript request_data ;;
  ret (map (fun completion =>
              BuildCompletionData (name completion) (JediObject completion))
         (completions W script)).

(** One turn of the loop of [DetailCandidates]. *)
Definition detail (candidate : Candidate) : Candidate :=
  match extra_data candidate with
  | PlainDict _ => candidate
  | JediObject completion =>
      mkCandidate (insertion_text candidate)
        (Some (_BuildTypeInfo completion))
        (Some (docstring completion))
        (Some (def_type completion))
        (_GetExtraData completion)
  end.

(** [DetailCandidates]: every candidate of the list is updated in place and
    the list is returned. *)
Definition DetailCandidates (request_data : RequestData)
    (candidates : list Candidate) : list Candidate :=
  map detail candidates.

(** [definition.column + 1]: Python raises [TypeError] when the column is
    [None]. *)
Definition plus_one (column : option Z) : result Z :=
  match column with
  | Some c => Ok (c + 1)%Z
  | None => Error TypeError
  end.

(** The [for] loop of [_BuildGoToResponse]: one location is appended to
    [gotos] per definition, and the first definition without a column ends
    the loop with the [TypeError]. *)
Fixpoint append_gotos (definitions : list BaseDefinition) (gotos : list GoTo)
    : result (list GoTo) :=
  match definitions with
  | [] => Ok gotos
  | definition :: rest =>
      match plus_one (column definition) with
      | Ok column_num =>
          append_gotos rest
            (gotos ++ [BuildGoToResponse (module_path definition) (line definition)
                         column_num (Some (description definition))])
      | Error e => Error e
      end
  end.

(** [_BuildGoToResponse]: it reads the completer's state nowhere. *)
Definition _BuildGoToResponse (definitions : list BaseDefinition) : result Response :=
  match definitions with
  | [definition] =>
      match plus_one (column definition) with
      | Ok column_num =>
          Ok (GoToOne (BuildGoToResponse (module_path definition) (line definition)
                         column_num None))
      | Error e => Error e
      end
  | _ =>
      match append_gotos definitions [] with
      | Ok gotos => Ok (GoToMany gotos)
      | Error e => Error e
      end
  end.

(** The filter of [_GoToDefinitionsWithSameName]: same name, and a path, a
    line or a column that differs. *)
Definition same_name_elsewhere (definition d : BaseDefinition) : bool :=
  bool_decide (name d = name definition)
  && (negb (bool_decide (module_path d = module_path definition))
      || negb (bool_decide (line d = line definition))
      || negb (bool_decide (column d = column definition))).

(** [_GoToDefinitionsWithSameName], the closure of [_GoToDefinition]. *)
Definition _GoToDefinitionsWithSameName (request_data : RequestData)
    (definition : BaseDefinition) : M (list BaseDefinition) :=
  if negb (truthy_opt (module_path definition)) then ret []
  else
    script <- _GetJediScriptForDefinition request_data definition ;;
    ret (List.filter (same_name_elsewhere definition) (goto_assignments W script)).

(** The [for] loop inside the [while]: [definitions] and [keep_traversing]
    are the two variables it updates. *)
Fixpoint traverse (request_data : RequestData)
    (previous_definitions definitions : list BaseDefinition)
    (keep_traversing : bool) : M (list BaseDefinition * bool) :=
  match previous_definitions with
  | [] => ret (definitions, keep_traversing)
  | definition :: rest =>
      goto_definitions <- _GoToDefinitionsWithSameName request_data definition ;;
      match goto_definitions with
      | _ :: _ => traverse request_data rest (definitions ++ goto_definitions) true
      | [] => traverse request_data rest (definitions ++ [definition]) keep_traversing
      end
  end.

(** The [while keep_traversing] loop; [fuel] bounds the number of rounds. *)
Fixpoint chase (fuel : nat) (request_data : RequestData)
    (definitions : list BaseDefinition) (keep_traversing : bool)
    : M (list BaseDefinition) :=
  if keep_traversing then
    match fuel with
    | O => out_of_fuel
    | S fuel' =>
        round <- traverse request_data definitions [] false ;;
        chase fuel' request_data (fst round) (snd round)
    end
  else ret definitions.

(** [_GoToDefinition]. *)
Definition _GoToDefinition (fuel : nat) (request_data : RequestData) : M Response :=
  script <- _GetJediScript request_data ;;
  definitions <- chase fuel request_data (goto_assignments W script) true ;;
  match definitions with
  | _ :: _ => lift (_BuildGoToResponse definitions)
  | [] => raise (RuntimeError "Can't jump to definition.")
  end.

(** [_GoToType]. *)
Definition _GoToType (request_data : RequestData) : M Response :=
  script <- _GetJediScript request_data ;;
  let definitions := goto_definitions W script in
  match definitions with
  | _ :: _ => lift (_BuildGoToResponse definitions)
  | [] => raise (RuntimeError "Can't jump to type definition.")
  end.

(** [_GoToReferences]. *)
Definition _GoToReferences (request_data : RequestData) : M Response :=
  script <- _GetJediScript request_data ;;
  let definitions := usages W script in
  match definitions with
  | _ :: _ => lift (_BuildGoToResponse definitions)
  | [] => raise (RuntimeError "Can't find references.")
  end.

(** [_GetType]. *)
Definition _GetType (request_data : RequestData) : M Response :=
  script <- _GetJediScript request_data ;;
  let definitions := goto_definitions W script in
  let type_info := map _BuildTypeInfo definitions in
  let type_info := join ", " type_info in
  if truthy type_info then ret (BuildDisplayMessageResponse type_info)
  else raise (RuntimeError "No type information available.").

(** [_GetDoc]. *)
Definition _GetDoc (request_data : RequestData) : M Response :=
  script <- _GetJediScript request_data ;;
  let definitions := goto_definitions W script in
  let documentation := map docstring definitions in
  let documentation := join (newline +:+ "---" +:+ newline) documentation in
  if truthy documentation then ret (BuildDetailedInfoResponse documentation)
  else raise (RuntimeError "No documentation available.").

(** The calls a client makes, and the state each leaves. *)
Inductive Call : Type :=
| FileReadyToParse (request_data : RequestData)
| ComputeCandidates (request_data : RequestData)
| GoToDefinition (fuel : nat) (request_data : RequestData)
| GoToType (request_data : RequestData)
| GoToReferences (request_data : RequestData)
| GetType (request_data : RequestData)
| GetDoc (request_data : RequestData).

Definition after (call : Call) (s : Completer) : Completer :=
  match call with
  | FileReadyToParse rd => fst (OnFileReadyToParse rd s)
  | ComputeCandidates rd => fst (ComputeCandidatesInner rd s)
  | GoToDefinition fuel rd => fst (_GoToDefinition fuel rd s)
  | GoToType rd => fst (_GoToType rd s)
  | GoToReferences rd => fst (_GoToReferences rd s)
  | GetType rd => fst (_GetType rd s)
  | GetDoc rd => fst (_GetDoc rd s)
  end.

(** The state after a sequence of calls, whatever their outcomes. *)
Definition after_all (calls : list Call) (s : Completer) : Completer :=
  fold_left (fun s call => after call s) calls s.

End PythonCompleter.

(** ** The chase without the state

    Once the caches of a request are filled, the sessions the chase opens
    depend on the definition alone.  [rounds] is the [while] loop over such a
    re-resolution function [next]; the proofs relate [chase] to it. *)

Section Frontier.

Variable next : BaseDefinition -> list BaseDefinition.

Fixpoint sweep (previous_definitions definitions : list BaseDefinition)
    (keep_traversing : bool) : list BaseDefinition * bool :=
  match previous_definitions with
  | [] => (definitions, keep_traversing)
  | definition :: rest =>
      match next definition with
      | _ :: _ => sweep rest (definitions ++ next definition) true
      | [] => sweep rest (definitions ++ [definition]) keep_traversing
      end
  end.

Fixpoint rounds (fuel : nat) (definitions : list BaseDefinition)
    (keep_traversing : bool) : option (list BaseDefinition) :=
  if keep_traversing then
    match fuel with
    | O => None
    | S fuel' =>
        let round := sweep definitions [] false in
        rounds fuel' (fst round) (snd round)
    end
  else Some definitions.

(** A definition the loop keeps as it is. *)
Definition terminal (d : BaseDefinition) : bool :=
  match next d with
  | [] => true
  | _ :: _ => false
  end.

(** What one definition leaves in the next frontier. *)
Definition advance (d : BaseDefinition) : list BaseDefinition :=
  match next d with
  | [] => [d]
  | _ :: _ => next d
  end.

End Frontier.

(** The session [_GetJediScriptForDefinition] opens at a definition, for a
    request whose environment and search path are known. *)
Definition session (W : World) (request_data : RequestData)
    (environment : Environment) (search_path : list string)
    (definition : BaseDefinition) : Script :=
  mkScript
    (GetFileContents W request_data (default EmptyString (module_path definition)))
    (line definition) (column definition) (module_path definition)
    search_path environment.

(** What [_GoToDefinitionsWithSameName] answers in that session. *)
Definition same_name (W : World) (request_data : RequestData)
    (environment : Environment) (search_path : list string)
    (definition : BaseDefinition) : list BaseDefinition :=
  if negb (truthy_opt (module_path definition)) then []
  else List.filter (same_name_elsewhere definition)
         (goto_assignments W (session W request_data environment search_path definition)).

(** The caches of a request are filled. *)
Definition warm (s : Completer) (request_data : RequestData)
    (environment : Environment) (search_path : list string) : Prop :=
  _environment_for_file s !! cache_key request_data = Some environment
  /\ _sys_path_for_file s !! cache_key request_data = Some search_path.

(** Where a definition is: the triple the filter compares. *)
Definition position (d : BaseDefinition) : option string * option Z * option Z :=
  (module_path d, line d, column d).

(** The greatest value of a measure over a frontier. *)
Definition highest (rank : BaseDefinition -> nat) (l : list BaseDefinition) : nat :=
  foldr (fun d m => Nat.max (rank d) m) 0 l.

(** ** The log and the dictionaries *)

(** The dictionary entry that an event announces is there. *)
Definition holds (s : Completer) (e : Event) : bool :=
  match e with
  | SettingsResolved key => bool_decide (is_Some (_settings_for_file s !! key))
  | EnvironmentResolved key => bool_decide (is_Some (_environment_for_file s !! key))
  | EnvironmentConstructed key =>
      bool_decide (is_Some (_environment_for_interpreter_path s !! key))
  | SysPathComputed key => bool_decide (is_Some (_sys_path_for_file s !! key))
  end.

Definition occurrences (e : Event) (l : list Event) : nat :=
  count_occ Event_eq_dec l e.

(** How the methods move the state: the log grows, by one note for every
    entry that enters a dictionary and by nothing else; an entry of the
    environment and search-path dictionaries, once there, stays as it is;
    a key of the settings dictionary, once there, stays; identities are
    never given back. *)
Definition evolves (s s1 : Completer) : Prop :=
  exists new : list Event,
    effects s1 = effects s ++ new
    /\ (forall e, occurrences e new = if negb (holds s e) && holds s1 e then 1 else 0)
    /\ (forall e, holds s e = true -> holds s1 e = true)
    /\ _environment_for_file s ⊆ _environment_for_file s1
    /\ _environment_for_interpreter_path s ⊆ _environment_for_interpreter_path s1
    /\ _sys_path_for_file s ⊆ _sys_path_for_file s1
    /\ next_env_id s <= next_env_id s1.

(** The entries of a request key are as they were. *)
Definition untouched (k : string * string) (s s1 : Completer) : Prop :=
  _settings_for_file s1 !! k = _settings_for_file s !! k
  /\ _environment_for_file s1 !! k = _environment_for_file s !! k
  /\ _sys_path_for_file s1 !! k = _sys_path_for_file s !! k.

(** What a method does to the state when it is called for a request with
    the key [key]. *)
Definition request_step (key : string * string) (s s1 : Completer) : Prop :=
  evolves s s1 /\ forall k, k <> key -> untouched k s s1.

Definition respects {A} (R : Completer -> Completer -> Prop) (m : M A) : Prop :=
  forall s, R s (fst (m s)).

(** Every environment in the cache was numbered before [next_env_id], and
    two keys never share a number. *)
Definition identities_distinct (s : Completer) : Prop :=
  (forall key e, _environment_for_interpreter_path s !! key = Some e ->
                 env_id e < next_env_id s)
  /\ (forall key1 key2 e1 e2,
        _environment_for_interpreter_path s !! key1 = Some e1 ->
        _environment_for_interpreter_path s !! key2 = Some e2 ->
        env_id e1 = env_id e2 -> key1 = key2).

(** A step that keeps the identities distinct. *)
Definition keeps_identities (s s1 : Completer) : Prop :=
  identities_distinct s -> identities_distinct s1.

(** ** Debug information *)

Record DebugInfoItem : Type := mkItem {
  item_key : string;
  item_value : string
}.

Record DebugInfoResponse : Type := mkDebugInfo {
  debug_name : string;
  debug_items : list DebugInfoItem
}.

(** Modelled from the spec: [responses.DebugInfoItem] and
    [responses.BuildDebugInfoResponse] are not among the sources; the spec
    gives the shape [DebugInfoResponse{name, items[{key, value}]}]. *)
Definition BuildDebugInfoResponse (name : string) (items : list DebugInfoItem)
    : DebugInfoResponse :=
  mkDebugInfo name items.

(** What [DebugInfo] reads besides the world: [jedi.__version__],
    [parso.__version__], and Python's [str] of a list of strings. *)
Record Versions : Type := mkVersions {
  jedi_version : string;
  parso_version : string;
  str_of_list : list string -> string
}.

(** [str( item )] of an integer: its decimal digits, after a minus sign for
    a negative one. *)
Definition str_of_int (z : Z) : string := NilZero.string_of_int (Z.to_int z).

(** [DebugInfo]. *)
Definition DebugInfo (W : World) (V : Versions) (request_data : RequestData)
    : M DebugInfoResponse :=
  environment <- _EnvironmentForRequest W request_data ;;
  let python_interpreter := mkItem "Python interpreter" (executable environment) in
  sys_path <- _SysPathForFile W request_data environment ;;
  let python_path := mkItem "Python path" (str_of_list V sys_path) in
  let python_version :=
    mkItem "Python version"
      (join "." (map str_of_int (info_version (env_info environment)))) in
  let jedi_item := mkItem "Jedi version" (jedi_version V) in
  let parso_item := mkItem "Parso version" (parso_version V) in
  ret (BuildDebugInfoResponse "Python"
         [python_interpreter; python_path; python_version; jedi_item; parso_item]).

(** ** Calls and what they end with *)

(** The request a call is made for. *)
Definition request_of (call : Call) : RequestData :=
  match call with
  | FileReadyToParse rd | ComputeCandidates rd | GoToDefinition _ rd
  | GoToType rd | GoToReferences rd | GetType rd | GetDoc rd => rd
  end.

(** The exception an outcome carries, if it is one. *)
Definition raised {A} (o : outcome A) : option exn :=
  match o with
  | Raise e => Some e
  | _ => None
  end.

(** The exception a call ends with, if it raises. *)
Definition exception_of (W : World) (call : Call) (s : Completer) : option exn :=
  match call with
  | FileReadyToParse rd => raised (snd (OnFileReadyToParse W rd s))
  | ComputeCandidates rd => raised (snd (ComputeCandidatesInner W rd s))
  | GoToDefinition fuel rd => raised (snd (_GoToDefinition W fuel rd s))
  | GoToType rd => raised (snd (_GoToType W rd s))
  | GoToReferences rd => raised (snd (_GoToReferences W rd s))
  | GetType rd => raised (snd (_GetType W rd s))
  | GetDoc rd => raised (snd (_GetDoc W rd s))
  end.

(** The messages with which a query says that it found nothing. *)
Definition nothing_found : list string :=
  ["Can't jump to definition."; "Can't jump to type definition.";
   "Can't find references."; "No type information available.";
   "No documentation available."].

(** The locations of a go-to response, in order. *)
Definition locations (r : Response) : list GoTo :=
  match r with
  | GoToOne g => [g]
  | GoToMany l => l
  | _ => []
  end.

(** The environment cached for a request is the one cached for the
    interpreter that the settings cached for the request name. *)
Definition environments_follow_settings (W : World) (s : Completer) : Prop :=
  forall (k : string * string) (e : Environment),
    _environment_for_file s !! k = Some e ->
    exists (settings : Settings) (key : option string),
      _settings_for_file s !! k = Some settings
      /\ snd (resolve_interpreter_path W (interpreter_path settings) s) = Ret key
      /\ _environment_for_interpreter_path s !! key = Some e.

Definition keeps_following (W : World) (s s1 : Completer) : Prop :=
  environments_follow_settings W s -> environments_follow_settings W s1.

(** ** Sample worlds

    Small engines and hosts on which the statements below are run. *)

Module Sample.

Definition python3 : EnvInfo :=
  mkEnvInfo "/usr/bin/python3" ["/usr/lib/python3"] [3; 7; 0]%Z.

(** A host without extra-conf module and an engine that finds nothing.
    Two spellings, [python3] and [/usr/bin/python3], name the one
    interpreter of the machine. *)
Definition quiet : World :=
  {| python_binary_path := EmptyString;
     ModuleForSourceFile := fun _ => None;
     ExpandVariablesInPath := fun p => p;
     FindExecutable := fun p =>
       if bool_decide (p = "python3") || bool_decide (p = "/usr/bin/python3")
       then Some "/usr/bin/python3" else None;
     normpath := fun p => p;
     get_default_environment := python3;
     create_environment := fun p => mkEnvInfo p ["/usr/lib/python3"] [3; 7; 0]%Z;
     GetFileContents := fun _ _ => EmptyString;
     completions := fun _ => [];
     goto_assignments := fun _ => [];
     goto_definitions := fun _ => [];
     usages := fun _ => [] |}.

Definition with_goto_assignments (f : Script -> list BaseDefinition) (W : World) : World :=
  mkWorld (python_binary_path W) (ModuleForSourceFile W) (ExpandVariablesInPath W)
    (FindExecutable W) (normpath W) (get_default_environment W)
    (create_environment W) (GetFileContents W) (completions W) f
    (goto_definitions W) (usages W).

Definition with_goto_definitions (f : Script -> list BaseDefinition) (W : World) : World :=
  mkWorld (python_binary_path W) (ModuleForSourceFile W) (ExpandVariablesInPath W)
    (FindExecutable W) (normpath W) (get_default_environment W)
    (create_environment W) (GetFileContents W) (completions W) (goto_assignments W)
    f (usages W).

Definition with_usages (f : Script -> list BaseDefinition) (W : World) : World :=
  mkWorld (python_binary_path W) (ModuleForSourceFile W) (ExpandVariablesInPath W)
    (FindExecutable W) (normpath W) (get_default_environment W)
    (create_environment W) (GetFileContents W) (completions W) (goto_assignments W)
    (goto_definitions W) f.

Definition with_module (m : ExtraConfModule) (W : World) : World :=
  mkWorld (python_binary_path W) (fun _ => Some m) (ExpandVariablesInPath W)
    (FindExecutable W) (normpath W) (get_default_environment W)
    (create_environment W) (GetFileContents W) (completions W) (goto_assignments W)
    (goto_definitions W) (usages W).

(** A request in [main.py], cursor on line 10, and the same request from a
    client that sends another configuration token. *)
Definition request : RequestData := mkRequest "main.py" "token" "x" 10 1.

(** The session of [request] on a host without extra-conf module: the
    default environment, the first object constructed, and its path. *)
Definition session_at_cursor : Script :=
  mkScript "x" (Some 10%Z) (Some 0%Z) (Some "main.py") ["/usr/lib/python3"]
    (mkEnv 0 python3).

Definition named_x (path : string) (l : Z) : BaseDefinition :=
  mkDef (Some path) (Some l) (Some 0%Z) "x" "x = 1" "statement" EmptyString None.

(** [main.py] imports [x] from [a.py], which imports it from [b.py], where
    it is assigned. *)
Definition a_ : BaseDefinition := named_x "main.py" 1.
Definition b_ : BaseDefinition := named_x "a.py" 1.
Definition c_ : BaseDefinition := named_x "b.py" 1.

Definition at_ (script : Script) (path : string) (l : Z) : bool :=
  bool_decide (script_path script = Some path)
  && bool_decide (script_line script = Some l)
  && bool_decide (script_column script = Some 0%Z).

(** The engine of the alias chain: from the cursor to [a_], from [a_] to
    [b_], from [b_] to [c_], and from [c_] to [c_] itself. *)
Definition chain : World :=
  with_goto_assignments
    (fun script =>
       if at_ script "main.py" 10 then [a_]
       else if at_ script "main.py" 1 then [b_]
       else if at_ script "a.py" 1 then [c_]
       else if at_ script "b.py" 1 then [c_]
       else [])
    quiet.

(** An engine with a direct definition: the cursor resolves to [c_]. *)
Definition direct : World :=
  with_goto_assignments
    (fun script =>
       if at_ script "main.py" 10 then [c_]
       else if at_ script "b.py" 1 then [c_]
       else [])
    quiet.

(** An engine that sends [a_] to [b_] and [b_] back to [a_]. *)
Definition cycle : World :=
  with_goto_assignments
    (fun script =>
       if at_ script "main.py" 10 then [a_]
       else if at_ script "main.py" 1 then [b_]
       else if at_ script "a.py" 1 then [a_]
       else [])
    quiet.

(** The measure of the chain: how many hops are left. *)
Definition here (d : BaseDefinition) (path : string) (l : Z) : bool :=
  bool_decide (module_path d = Some path) && bool_decide (line d = Some l)
  && bool_decide (column d = Some 0%Z).

Definition hops (d : BaseDefinition) : nat :=
  if here d "main.py" 10 then 3
  else if here d "main.py" 1 then 2
  else if here d "a.py" 1 then 1
  else 0.

(** Two definitions without documentation. *)
Definition undocumented : World :=
  with_goto_definitions (fun _ => [a_; b_]) quiet.

(** One definition with an empty description and no [params]. *)
Definition blank : BaseDefinition :=
  mkDef (Some "main.py") (Some 1%Z) (Some 0%Z) "x" EmptyString "statement"
    EmptyString None.

Definition nameless : World :=
  with_goto_definitions (fun _ => [blank]) quiet.

(** A function of two parameters and a plain name. *)
Definition f_ : BaseDefinition :=
  mkDef (Some "main.py") (Some 3%Z) (Some 4%Z) "f" "def f" "function" "Adds."
    (Some [mkParam "param a"; mkParam "param b=1"]).

Definition typed : World :=
  with_goto_definitions (fun _ => [f_; a_]) (with_usages (fun _ => [a_; b_]) chain).

(** An extra-conf module that names the interpreter and a search path. *)
Definition conf : ExtraConfModule :=
  mkModule ".ycm_extra_conf.py"
    (Some (fun _ _ _ => Some (mkSettings (Some "python3") (Some ["/srv/lib"]))))
    None.

Definition configured : World := with_module conf quiet.


(** A module that asks for an interpreter the machine does not have. *)
Definition broken_conf : ExtraConfModule :=
  mkModule ".ycm_extra_conf.py"
    (Some (fun _ _ _ => Some (mkSettings (Some "python9") None)))
    None.

Definition misconfigured : World := with_module broken_conf quiet.

(** A batch of candidates: one already detailed, one not yet. *)
Definition detailed_candidate : Candidate :=
  mkCandidate "f" (Some "def f(a, b=1)") (Some "Adds.") (Some "function")
    (PlainDict (Some (mkLocation "main.py" 3 5))).

Definition batch : list Candidate :=
  [detailed_candidate; BuildCompletionData "x" (JediObject a_)].

(** ** More samples *)

Definition with_completions (f : Script -> list BaseDefinition) (W : World) : World :=
  mkWorld (python_binary_path W) (ModuleForSourceFile W) (ExpandVariablesInPath W)
    (FindExecutable W) (normpath W) (get_default_environment W)
    (create_environment W) (GetFileContents W) f (goto_assignments W)
    (goto_definitions W) (usages W).

(** An engine that completes two names. *)
Definition completing : World := with_completions (fun _ => [f_; a_]) quiet.

(** [len], a builtin: no module path and no position. *)
Definition len_ : BaseDefinition :=
  mkDef None None None "len" "def len" "function" "Return the number of items."
    (Some [mkParam "param obj"]).

Definition builtin : World := with_goto_assignments (fun _ => [len_]) quiet.

(** The builtin [int], as goto-definitions finds it for a name that is
    bound to a number: no module path and no position either. *)
Definition int_ : BaseDefinition :=
  mkDef None None None "int" "instance int" "instance" "int(x=0) -> integer" None.

Definition builtin_type : World := with_goto_definitions (fun _ => [int_]) quiet.

(** A request in another file, from the same client. *)
Definition request_elsewhere : RequestData := mkRequest "b.py" "token" "y" 1 1.

(** A request at the place where [f_] is reported: line 3, column 5. *)
Definition request_at_f : RequestData := mkRequest "main.py" "token" "x" 3 5.

(** Versions of the two libraries, and a [str] for lists of plain names. *)
Definition versions : Versions :=
  mkVersions "0.13.3" "0.4.0"
    (fun l => "[" +:+ join ", " (map (fun p => "'" +:+ p +:+ "'") l) +:+ "]").

End Sample.

(** * Properties *)

(** ** Running the monad *)

Lemma bind_ret_l {A B} (a : A) (k : A -> M B) (s : Completer) :
  bind (ret a) k s = k a s.
Proof. reflexivity. Qed.

Lemma bind_run {A B} (m : M A) (k : A -> M B) (s s' : Completer) (a : A) :
  m s = (s', Ret a) -> bind m k s = k a s'.
Proof. intros H. unfold bind. rewrite H. reflexivity. Qed.

Lemma bind_raise {A B} (m : M A) (k : A -> M B) (s s' : Completer) (e : exn) :
  m s = (s', Raise e) -> bind m k s = (s', Raise e).
Proof. intros H. unfold bind. rewrite H. reflexivity. Qed.

Lemma bind_inv {A B} (m : M A) (k : A -> M B) (s s2 : Completer) (b : B) :
  bind m k s = (s2, Ret b) ->
  exists s1 a, m s = (s1, Ret a) /\ k a s1 = (s2, Ret b).
Proof.
  unfold bind. destruct (m s) as [s1 [a | e |]]; intros H; try discriminate.
  exists s1, a. split; [reflexivity | exact H].
Qed.

(** A relation on states that every step of a computation respects is
    respected by the computation. *)
Lemma respects_bind {A B} (R : Completer -> Completer -> Prop)
    (m : M A) (k : A -> M B) :
  (forall s s1 s2, R s s1 -> R s1 s2 -> R s s2) ->
  respects R m -> (forall a, respects R (k a)) -> respects R (bind m k).
Proof.
  intros Htrans Hm Hk s. unfold bind. specialize (Hm s).
  destruct (m s) as [s1 [a | e |]]; simpl in *; [| exact Hm | exact Hm].
  eapply Htrans; [exact Hm | apply Hk].
Qed.

Lemma respects_ret {A} (R : Completer -> Completer -> Prop) (a : A) :
  (forall s, R s s) -> respects R (ret a).
Proof. intros Hrefl s. apply Hrefl. Qed.

Lemma respects_raise {A} (R : Completer -> Completer -> Prop) (e : exn) :
  (forall s, R s s) -> respects R (@raise A e).
Proof. intros Hrefl s. apply Hrefl. Qed.

Lemma respects_out_of_fuel {A} (R : Completer -> Completer -> Prop) :
  (forall s, R s s) -> respects R (@out_of_fuel A).
Proof. intros Hrefl s. apply Hrefl. Qed.

Lemma respects_lift {A} (R : Completer -> Completer -> Prop) (r : result A) :
  (forall s, R s s) -> respects R (lift r).
Proof. intros Hrefl s. apply Hrefl. Qed.

Lemma respects_get (R : Completer -> Completer -> Prop) :
  (forall s, R s s) -> respects R get.
Proof. intros Hrefl s. apply Hrefl. Qed.

Lemma respects_modify (R : Completer -> Completer -> Prop) (f : Completer -> Completer) :
  (forall s, R s (f s)) -> respects R (modify f).
Proof. intros H s. apply H. Qed.

(** ** The caches *)

Section Caches.

Variable W : World.

(** What [_SettingsForRequest] does, hit or miss. *)
Lemma settings_for_request_run (rd : RequestData) (s : Completer) :
  _SettingsForRequest W rd s =
  match _settings_for_file s !! cache_key rd with
  | Some settings => (s, Ret settings)
  | None =>
      let settings :=
        _GetSettings W (ModuleForSourceFile W (filepath rd))
          (filepath rd) (extra_conf_data rd) in
      (cache_settings (cache_key rd) settings s, Ret settings)
  end.
Proof.
  unfold _SettingsForRequest, cache_key, bind, get. simpl.
  destruct (_settings_for_file s !! (filepath rd, extra_conf_data rd)); reflexivity.
Qed.

Lemma settings_for_request_hit (rd : RequestData) (s : Completer) (settings : Settings) :
  _settings_for_file s !! cache_key rd = Some settings ->
  _SettingsForRequest W rd s = (s, Ret settings).
Proof. intros H. rewrite settings_for_request_run, H. reflexivity. Qed.

(** [_SettingsForRequest] always returns, with the key cached afterwards and
    the other dictionaries as they were. *)
Lemma settings_for_request_total (rd : RequestData) (s : Completer) :
  exists s1 settings,
    _SettingsForRequest W rd s = (s1, Ret settings)
    /\ _settings_for_file s1 !! cache_key rd = Some settings
    /\ _environment_for_file s1 = _environment_for_file s
    /\ _environment_for_interpreter_path s1 = _environment_for_interpreter_path s
    /\ _sys_path_for_file s1 = _sys_path_for_file s
    /\ next_env_id s1 = next_env_id s.
Proof.
  rewrite settings_for_request_run.
  destruct (_settings_for_file s !! cache_key rd) as [settings |] eqn:E.
  - exists s, settings. repeat split; auto.
  - eexists _, _. split; [reflexivity |]. simpl.
    rewrite lookup_insert_eq. repeat split; auto.
Qed.


(** The first half of [_EnvironmentForInterpreterPath] never touches the
    state. *)
Lemma resolve_interpreter_path_state (path : option string) (s : Completer) :
  fst (resolve_interpreter_path W path s) = s.
Proof.
  unfold resolve_interpreter_path.
  destruct path as [p |]; [| reflexivity].
  destruct (truthy p); [| reflexivity].
  destruct (FindExecutable W (ExpandVariablesInPath W p)) as [r |]; [| reflexivity].
  destruct (truthy r); reflexivity.
Qed.

(** A truthy path whose executable is found resolves to the normalised
    executable. *)
Lemma resolve_interpreter_path_found (p r : string) (s : Completer) :
  truthy p = true ->
  FindExecutable W (ExpandVariablesInPath W p) = Some r ->
  truthy r = true ->
  resolve_interpreter_path W (Some p) s = (s, Ret (Some (normpath W r))).
Proof.
  intros Hp Hr Ht. unfold resolve_interpreter_path. rewrite Hp, Hr, Ht. reflexivity.
Qed.

(** A truthy path whose executable is not found raises, naming the path as
    it was given. *)
Lemma resolve_interpreter_path_missing (p : string) (s : Completer) :
  truthy p = true ->
  truthy_opt (FindExecutable W (ExpandVariablesInPath W p)) = false ->
  resolve_interpreter_path W (Some p) s =
  (s, Raise (RuntimeError ("Cannot find Python interpreter path " +:+ p +:+ "."))).
Proof.
  intros Hp Hr. unfold resolve_interpreter_path. rewrite Hp.
  destruct (FindExecutable W (ExpandVariablesInPath W p)) as [r |]; [| reflexivity].
  simpl in Hr. rewrite Hr. reflexivity.
Qed.

(** The state after a miss of the environment cache at [key]. *)
Lemma environment_for_interpreter_path_run (path key : option string) (s : Completer) :
  resolve_interpreter_path W path s = (s, Ret key) ->
  _EnvironmentForInterpreterPath W path s =
  match _environment_for_interpreter_path s !! key with
  | Some environment => (s, Ret environment)
  | None =>
      let environment := mkEnv (next_env_id s) (jedi_environment W key) in
      (cache_environment key environment (fst (construct (jedi_environment W key) s)),
       Ret environment)
  end.
Proof.
  intros H. unfold _EnvironmentForInterpreterPath.
  rewrite (bind_run _ _ _ _ _ H). unfold bind, get. simpl.
  destruct (_environment_for_interpreter_path s !! key); reflexivity.
Qed.

(** Either way the handle is in the cache afterwards, under the resolved
    key, and the per-file dictionaries are as they were. *)
Lemma environment_for_interpreter_path_cached (path key : option string) (s : Completer) :
  resolve_interpreter_path W path s = (s, Ret key) ->
  exists s1 environment,
    _EnvironmentForInterpreterPath W path s = (s1, Ret environment)
    /\ _environment_for_interpreter_path s1 !! key = Some environment
    /\ _settings_for_file s1 = _settings_for_file s
    /\ _environment_for_file s1 = _environment_for_file s
    /\ _sys_path_for_file s1 = _sys_path_for_file s.
Proof.
  intros H. rewrite (environment_for_interpreter_path_run _ _ _ H).
  destruct (_environment_for_interpreter_path s !! key) as [environment |] eqn:E.
  - exists s, environment. repeat split; auto.
  - eexists _, _. split; [reflexivity |]. simpl.
    rewrite lookup_insert_eq. repeat split; auto.
Qed.

(** An outcome of [_EnvironmentForInterpreterPath] is an outcome of its
    first half: it returns when the path resolves and raises the same
    exception, in the same state, when it does not. *)
Lemma environment_for_interpreter_path_raise (path : option string) (s : Completer) (e : exn) :
  resolve_interpreter_path W path s = (s, Raise e) ->
  _EnvironmentForInterpreterPath W path s = (s, Raise e).
Proof. intros H. unfold _EnvironmentForInterpreterPath. apply bind_raise, H. Qed.


Lemma resolve_interpreter_path_cases (path : option string) (s : Completer) :
  (exists key, resolve_interpreter_path W path s = (s, Ret key))
  \/ (exists e, resolve_interpreter_path W path s = (s, Raise e)).
Proof.
  unfold resolve_interpreter_path.
  destruct path as [p |]; [| left; eexists; reflexivity].
  destruct (truthy p); [| left; eexists; reflexivity].
  destruct (FindExecutable W (ExpandVariablesInPath W p)) as [r |];
    [| right; eexists; reflexivity].
  destruct (truthy r); [left | right]; eexists; reflexivity.
Qed.

Lemma environment_for_request_hit (rd : RequestData) (s : Completer) (environment : Environment) :
  _environment_for_file s !! cache_key rd = Some environment ->
  _EnvironmentForRequest W rd s = (s, Ret environment).
Proof.
  intros H. unfold _EnvironmentForRequest, bind, get. simpl.
  unfold cache_key in H. rewrite H. reflexivity.
Qed.

(** When [_EnvironmentForRequest] returns, the handle is cached for the
    request, and the search-path dictionary is as it was. *)
Lemma environment_for_request_returns (rd : RequestData) (s s1 : Completer)
    (environment : Environment) :
  _EnvironmentForRequest W rd s = (s1, Ret environment) ->
  _environment_for_file s1 !! cache_key rd = Some environment
  /\ _sys_path_for_file s1 = _sys_path_for_file s.
Proof.
  unfold _EnvironmentForRequest, bind at 1, get. simpl. fold (cache_key rd).
  destruct (_environment_for_file s !! cache_key rd) as [cached |] eqn:E.
  - intros [= <- <-]. auto.
  - unfold bind at 1.
    destruct (settings_for_request_total rd s)
      as (s2 & settings & Hrun & _ & _ & _ & Hsp & _).
    rewrite Hrun. unfold bind at 1.
    destruct (resolve_interpreter_path_cases (interpreter_path settings) s2)
      as [[key Hkey] | [e He]].
    + destruct (environment_for_interpreter_path_cached _ _ _ Hkey)
        as (s3 & env & Henv & _ & _ & _ & Hsp3).
      rewrite Henv. unfold bind, modify, ret. simpl.
      intros [= <- <-]. simpl. rewrite lookup_insert_eq. split; [reflexivity |].
      rewrite Hsp3, Hsp. reflexivity.
    + rewrite (environment_for_interpreter_path_raise _ _ _ He). discriminate.
Qed.

Lemma sys_path_for_file_hit (rd : RequestData) (environment : Environment)
    (s : Completer) (search_path : list string) :
  _sys_path_for_file s !! cache_key rd = Some search_path ->
  _SysPathForFile W rd environment s = (s, Ret search_path).
Proof.
  intros H. unfold _SysPathForFile, bind, get. simpl.
  unfold cache_key in H. rewrite H. reflexivity.
Qed.

(** [_GetSysPath] always returns and leaves the environment dictionaries and
    the search-path dictionary as they were. *)
Lemma get_sys_path_total (rd : RequestData) (environment : Environment) (s : Completer) :
  exists s1 search_path,
    _GetSysPath W rd environment s = (s1, Ret search_path)
    /\ _environment_for_file s1 = _environment_for_file s
    /\ _environment_for_interpreter_path s1 = _environment_for_interpreter_path s
    /\ _sys_path_for_file s1 = _sys_path_for_file s
    /\ next_env_id s1 = next_env_id s.
Proof.
  unfold _GetSysPath.
  destruct (settings_for_request_total rd s)
    as (s1 & cached & Hrun & _ & Hef & Hei & Hsp & Hid).
  rewrite (bind_run _ _ _ _ _ Hrun).
  destruct (sys_path cached) as [l |]; unfold bind, modify, ret; simpl;
    destruct (ModuleForSourceFile W (filepath rd)) as [m |];
    try destruct (PythonSysPathHook m);
    eexists _, _; (split; [reflexivity |]); simpl; repeat split; assumption.
Qed.

(** [_SysPathForFile] always returns, with the search path cached for the
    request afterwards. *)
Lemma sys_path_for_file_total (rd : RequestData) (environment : Environment) (s : Completer) :
  exists s1 search_path,
    _SysPathForFile W rd environment s = (s1, Ret search_path)
    /\ _sys_path_for_file s1 !! cache_key rd = Some search_path
    /\ _environment_for_file s1 = _environment_for_file s
    /\ _environment_for_interpreter_path s1 = _environment_for_interpreter_path s.
Proof.
  unfold _SysPathForFile, bind at 1, get. simpl. fold (cache_key rd).
  destruct (_sys_path_for_file s !! cache_key rd) as [cached |] eqn:E.
  - exists s, cached. repeat split; auto.
  - destruct (get_sys_path_total rd environment s)
      as (s1 & search_path & Hrun & Hef & Hei & _).
    rewrite (bind_run _ _ _ _ _ Hrun). unfold bind, modify, ret. simpl.
    eexists _, _. split; [reflexivity |]. simpl.
    rewrite lookup_insert_eq. repeat split; assumption.
Qed.

(** After [_GetJediScript] has returned, the caches of the request are
    filled with the environment and the search path of the script. *)
Lemma get_jedi_script_warm (rd : RequestData) (s s1 : Completer) (script : Script) :
  _GetJediScript W rd s = (s1, Ret script) ->
  warm s1 rd (script_environment script) (script_sys_path script)
  /\ script = mkScript (contents rd) (Some (line_num rd)) (Some (start_codepoint rd - 1)%Z)
               (Some (filepath rd)) (script_sys_path script) (script_environment script).
Proof.
  unfold _GetJediScript. intros H.
  apply bind_inv in H as (s2 & environment & Henv & H).
  apply environment_for_request_returns in Henv as [Hcached _].
  destruct (sys_path_for_file_total rd environment s2)
    as (s3 & search_path & Hrun & Hsp & Hef & _).
  rewrite (bind_run _ _ _ _ _ Hrun) in H. unfold ret in H.
  injection H as <- <-. simpl. unfold warm.
  rewrite Hef. auto.
Qed.

(** With the caches filled, both session builders return at once and leave
    the state alone. *)
Lemma get_jedi_script_hit (rd : RequestData) (s : Completer)
    (environment : Environment) (search_path : list string) :
  warm s rd environment search_path ->
  _GetJediScript W rd s =
  (s, Ret (mkScript (contents rd) (Some (line_num rd)) (Some (start_codepoint rd - 1)%Z)
             (Some (filepath rd)) search_path environment)).
Proof.
  intros [He Hs]. unfold _GetJediScript.
  rewrite (bind_run _ _ _ _ _ (environment_for_request_hit _ _ _ He)).
  rewrite (bind_run _ _ _ _ _ (sys_path_for_file_hit _ _ _ _ Hs)).
  reflexivity.
Qed.

(** The outcome of [_GetJediScript] names the state it leaves. *)
Lemma get_jedi_script_returns (rd : RequestData) (s : Completer) (script : Script) :
  snd (_GetJediScript W rd s) = Ret script ->
  exists s1, _GetJediScript W rd s = (s1, Ret script)
             /\ warm s1 rd (script_environment script) (script_sys_path script).
Proof.
  intros H. destruct (_GetJediScript W rd s) as [s1 o] eqn:E.
  simpl in H. subst o. exists s1. split; [reflexivity |].
  apply (get_jedi_script_warm _ _ _ _ E).
Qed.

Lemma get_jedi_script_for_definition_hit (rd : RequestData) (s : Completer)
    (environment : Environment) (search_path : list string) (d : BaseDefinition) :
  warm s rd environment search_path ->
  _GetJediScriptForDefinition W rd d s = (s, Ret (session W rd environment search_path d)).
Proof.
  intros [He Hs]. unfold _GetJediScriptForDefinition.
  rewrite (bind_run _ _ _ _ _ (environment_for_request_hit _ _ _ He)).
  rewrite (bind_run _ _ _ _ _ (sys_path_for_file_hit _ _ _ _ Hs)).
  reflexivity.
Qed.

End Caches.

(** ** The log and the dictionaries: how the state moves *)

Lemma occurrences_app (e : Event) (l1 l2 : list Event) :
  occurrences e (l1 ++ l2) = occurrences e l1 + occurrences e l2.
Proof. apply count_occ_app. Qed.

Lemma occurrences_one (e e' : Event) :
  occurrences e [e'] = if decide (e' = e) then 1 else 0.
Proof.
  unfold occurrences. simpl. unfold decide, decide_rel.
  destruct (Event_eq_dec e' e); reflexivity.
Qed.

Lemma evolves_refl (s : Completer) : evolves s s.
Proof.
  exists []. rewrite app_nil_r. repeat split; auto.
  intros e. destruct (holds s e); reflexivity.
Qed.

Lemma evolves_trans (s s1 s2 : Completer) :
  evolves s s1 -> evolves s1 s2 -> evolves s s2.
Proof.
  intros (n1 & E1 & C1 & M1 & F1 & I1 & P1 & N1) (n2 & E2 & C2 & M2 & F2 & I2 & P2 & N2).
  exists (n1 ++ n2). split; [rewrite E2, E1, app_assoc; reflexivity |].
  split; [| split; [| repeat split]].
  - intros e. rewrite occurrences_app, C1, C2.
    specialize (M1 e). specialize (M2 e).
    destruct (holds s e), (holds s1 e), (holds s2 e); simpl in *; try reflexivity;
      try (discriminate M1; reflexivity); try (discriminate M2; reflexivity).
  - intros e H. apply M2, M1, H.
  - etransitivity; eassumption.
  - etransitivity; eassumption.
  - etransitivity; eassumption.
  - lia.
Qed.

Ltac holds_cases :=
  repeat match goal with
  | |- context [bool_decide ?P] => destruct (bool_decide_reflect P)
  | H : is_Some None |- _ => destruct H as [? H]; discriminate H
  | H : ¬ is_Some (Some _) |- _ => exfalso; apply H; eexists; reflexivity
  end.

Lemma evolves_cache_settings (key : string * string) (v : Settings) (s : Completer) :
  _settings_for_file s !! key = None -> evolves s (cache_settings key v s).
Proof.
  intros H. exists [SettingsResolved key]. split; [reflexivity |].
  split; [| split; [| repeat split; simpl; auto]].
  - intros e. rewrite occurrences_one.
    destruct (decide (SettingsResolved key = e)) as [<- | Hne]; simpl.
    + rewrite H, lookup_insert_eq. holds_cases; reflexivity.
    + destruct e as [k | k | k | k]; simpl;
        try rewrite lookup_insert_ne by congruence;
        destruct (bool_decide _); reflexivity.
  - intros e. destruct e as [k | k | k | k]; simpl; auto.
    rewrite !bool_decide_eq_true. intros Hk.
    destruct (decide (key = k)) as [-> | Hne];
      [rewrite lookup_insert_eq | rewrite lookup_insert_ne by exact Hne]; eauto.
Qed.

Lemma evolves_cache_environment_for_file (key : string * string) (v : Environment)
    (s : Completer) :
  _environment_for_file s !! key = None -> evolves s (cache_environment_for_file key v s).
Proof.
  intros H. exists [EnvironmentResolved key]. split; [reflexivity |].
  split; [| split; [| repeat split; simpl; auto; apply insert_subseteq, H]].
  - intros e. rewrite occurrences_one.
    destruct (decide (EnvironmentResolved key = e)) as [<- | Hne]; simpl.
    + rewrite H, lookup_insert_eq. holds_cases; reflexivity.
    + destruct e as [k | k | k | k]; simpl;
        try rewrite lookup_insert_ne by congruence;
        destruct (bool_decide _); reflexivity.
  - intros e. destruct e as [k | k | k | k]; simpl; auto.
    rewrite !bool_decide_eq_true. intros Hk.
    destruct (decide (key = k)) as [-> | Hne];
      [rewrite lookup_insert_eq | rewrite lookup_insert_ne by exact Hne]; eauto.
Qed.

Lemma evolves_cache_environment (key : option string) (v : Environment) (s : Completer) :
  _environment_for_interpreter_path s !! key = None -> evolves s (cache_environment key v s).
Proof.
  intros H. exists [EnvironmentConstructed key]. split; [reflexivity |].
  split; [| split; [| repeat split; simpl; auto; apply insert_subseteq, H]].
  - intros e. rewrite occurrences_one.
    destruct (decide (EnvironmentConstructed key = e)) as [<- | Hne]; simpl.
    + rewrite H, lookup_insert_eq. holds_cases; reflexivity.
    + destruct e as [k | k | k | k]; simpl;
        try rewrite lookup_insert_ne by congruence;
        destruct (bool_decide _); reflexivity.
  - intros e. destruct e as [k | k | k | k]; simpl; auto.
    rewrite !bool_decide_eq_true. intros Hk.
    destruct (decide (key = k)) as [-> | Hne];
      [rewrite lookup_insert_eq | rewrite lookup_insert_ne by exact Hne]; eauto.
Qed.

Lemma evolves_cache_sys_path (key : string * string) (v : list string) (s : Completer) :
  _sys_path_for_file s !! key = None -> evolves s (cache_sys_path key v s).
Proof.
  intros H. exists [SysPathComputed key]. split; [reflexivity |].
  split; [| split; [| repeat split; simpl; auto; apply insert_subseteq, H]].
  - intros e. rewrite occurrences_one.
    destruct (decide (SysPathComputed key = e)) as [<- | Hne]; simpl.
    + rewrite H, lookup_insert_eq. holds_cases; reflexivity.
    + destruct e as [k | k | k | k]; simpl;
        try rewrite lookup_insert_ne by congruence;
        destruct (bool_decide _); reflexivity.
  - intros e. destruct e as [k | k | k | k]; simpl; auto.
    rewrite !bool_decide_eq_true. intros Hk.
    destruct (decide (key = k)) as [-> | Hne];
      [rewrite lookup_insert_eq | rewrite lookup_insert_ne by exact Hne]; eauto.
Qed.

Lemma evolves_store_settings (key : string * string) (v : Settings) (s : Completer) :
  is_Some (_settings_for_file s !! key) -> evolves s (store_settings key v s).
Proof.
  intros H. exists []. split; [simpl; rewrite app_nil_r; reflexivity |].
  assert (Hsame : forall e, holds (store_settings key v s) e = holds s e).
  { intros e. destruct e as [k | k | k | k]; simpl; try reflexivity.
    destruct (decide (key = k)) as [<- | Hne];
      [rewrite lookup_insert_eq | rewrite lookup_insert_ne by exact Hne; reflexivity].
    rewrite !bool_decide_eq_true_2; eauto. }
  split; [| split; [| repeat split; simpl; auto]].
  - intros e. rewrite Hsame. destruct (holds s e); reflexivity.
  - intros e. rewrite Hsame. auto.
Qed.

Lemma evolves_construct (info : EnvInfo) (s : Completer) :
  evolves s (fst (construct info s)).
Proof.
  exists []. split; [simpl; rewrite app_nil_r; reflexivity |].
  split; [| split; [| repeat split; simpl; auto]].
  - intros e. destruct e; simpl; destruct (bool_decide _); reflexivity.
  - intros e. destruct e; simpl; auto.
Qed.

Lemma request_step_refl (key : string * string) (s : Completer) : request_step key s s.
Proof. split; [apply evolves_refl |]. intros k _. repeat split. Qed.

Lemma request_step_trans (key : string * string) (s s1 s2 : Completer) :
  request_step key s s1 -> request_step key s1 s2 -> request_step key s s2.
Proof.
  intros [E1 U1] [E2 U2]. split; [eapply evolves_trans; eassumption |].
  intros k Hk. destruct (U1 k Hk) as (A1 & B1 & C1). destruct (U2 k Hk) as (A2 & B2 & C2).
  repeat split; congruence.
Qed.

(** Every method called for a request is a [request_step] at the key of
    the request. *)
Section Steps.

Variable W : World.

Lemma settings_for_request_step (rd : RequestData) :
  respects (request_step (cache_key rd)) (_SettingsForRequest W rd).
Proof.
  intros s. rewrite settings_for_request_run.
  destruct (_settings_for_file s !! cache_key rd) eqn:E; [apply request_step_refl |].
  split; [apply evolves_cache_settings, E |].
  intros k Hk. repeat split. simpl. apply lookup_insert_ne. congruence.
Qed.

(** Environment resolution leaves the per-request dictionaries alone. *)
Lemma environment_for_interpreter_path_step (path : option string) (key : string * string) :
  respects (request_step key) (_EnvironmentForInterpreterPath W path).
Proof.
  intros s.
  destruct (resolve_interpreter_path_cases W path s) as [[k Hk] | [e He]].
  - rewrite (environment_for_interpreter_path_run W _ _ _ Hk).
    destruct (_environment_for_interpreter_path s !! k) eqn:E; [apply request_step_refl |].
    split; [| intros k' _; repeat split].
    eapply evolves_trans; [apply (evolves_construct (jedi_environment W k)) |].
    apply evolves_cache_environment. exact E.
  - rewrite (environment_for_interpreter_path_raise W _ _ _ He). apply request_step_refl.
Qed.

Lemma environment_for_interpreter_path_frame (path : option string) (s : Completer) :
  _settings_for_file (fst (_EnvironmentForInterpreterPath W path s)) = _settings_for_file s
  /\ _environment_for_file (fst (_EnvironmentForInterpreterPath W path s)) = _environment_for_file s
  /\ _sys_path_for_file (fst (_EnvironmentForInterpreterPath W path s)) = _sys_path_for_file s.
Proof.
  destruct (resolve_interpreter_path_cases W path s) as [[k Hk] | [e He]].
  - rewrite (environment_for_interpreter_path_run W _ _ _ Hk).
    destruct (_environment_for_interpreter_path s !! k); repeat split.
  - rewrite (environment_for_interpreter_path_raise W _ _ _ He). repeat split.
Qed.

Lemma environment_for_request_step (rd : RequestData) :
  respects (request_step (cache_key rd)) (_EnvironmentForRequest W rd).
Proof.
  intros s. unfold _EnvironmentForRequest, bind at 1, get. simpl. fold (cache_key rd).
  destruct (_environment_for_file s !! cache_key rd) eqn:E; [apply request_step_refl |].
  pose proof (settings_for_request_step rd s) as R1.
  destruct (settings_for_request_total W rd s) as (s2 & settings & Hrun & _ & Hef & _).
  rewrite (bind_run _ _ _ _ _ Hrun). rewrite Hrun in R1. simpl in R1.
  pose proof (environment_for_interpreter_path_step (interpreter_path settings)
                (cache_key rd) s2) as R2.
  destruct (environment_for_interpreter_path_frame (interpreter_path settings) s2)
    as (_ & Hef3 & _).
  unfold bind at 1.
  destruct (_EnvironmentForInterpreterPath W (interpreter_path settings) s2) as [s3 [env | e |]];
    simpl in *; try (eapply request_step_trans; eassumption).
  eapply request_step_trans; [eassumption |].
  eapply request_step_trans; [eassumption |].
  split.
  - apply evolves_cache_environment_for_file. rewrite Hef3, Hef. exact E.
  - intros k Hk. repeat split. simpl. apply lookup_insert_ne. congruence.
Qed.

Lemma get_sys_path_step (rd : RequestData) (environment : Environment) :
  respects (request_step (cache_key rd)) (_GetSysPath W rd environment).
Proof.
  intros s. unfold _GetSysPath.
  pose proof (settings_for_request_step rd s) as R1.
  destruct (settings_for_request_total W rd s) as (s2 & cached & Hrun & Hst & _).
  rewrite (bind_run _ _ _ _ _ Hrun). rewrite Hrun in R1. simpl in R1.
  eapply request_step_trans; [exact R1 |].
  assert (Hstore : forall v, request_step (cache_key rd) s2 (store_settings (cache_key rd) v s2)).
  { intros v. split; [apply evolves_store_settings; rewrite Hst; eauto |].
    intros k Hk. repeat split. simpl. apply lookup_insert_ne. congruence. }
  destruct (sys_path cached); unfold bind, modify, ret; simpl;
    destruct (ModuleForSourceFile W (filepath rd)) as [m |];
    try destruct (PythonSysPathHook m); simpl;
    first [apply Hstore | apply request_step_refl].
Qed.

Lemma sys_path_for_file_step (rd : RequestData) (environment : Environment) :
  respects (request_step (cache_key rd)) (_SysPathForFile W rd environment).
Proof.
  intros s. unfold _SysPathForFile, bind at 1, get. simpl. fold (cache_key rd).
  destruct (_sys_path_for_file s !! cache_key rd) eqn:E; [apply request_step_refl |].
  pose proof (get_sys_path_step rd environment s) as R1.
  destruct (get_sys_path_total W rd environment s) as (s2 & sp & Hrun & _ & _ & Hsp & _).
  rewrite (bind_run _ _ _ _ _ Hrun). rewrite Hrun in R1. simpl in R1.
  eapply request_step_trans; [exact R1 |].
  unfold bind, modify, ret. simpl. split.
  - apply evolves_cache_sys_path. rewrite Hsp. exact E.
  - intros k Hk. repeat split. simpl. apply lookup_insert_ne. congruence.
Qed.

Lemma get_jedi_script_step (rd : RequestData) :
  respects (request_step (cache_key rd)) (_GetJediScript W rd).
Proof.
  unfold _GetJediScript.
  apply respects_bind; [apply request_step_trans | apply environment_for_request_step |].
  intros environment.
  apply respects_bind; [apply request_step_trans | apply sys_path_for_file_step |].
  intros sp s. apply request_step_refl.
Qed.

End Steps.

Section Calls.

Variable W : World.
Variable rd : RequestData.

Local Abbreviation R := (request_step (cache_key rd)).

Lemma step_refl (s : Completer) : R s s.
Proof. apply request_step_refl. Qed.

Lemma step_trans (s s1 s2 : Completer) : R s s1 -> R s1 s2 -> R s s2.
Proof. apply request_step_trans. Qed.

Ltac compose :=
  repeat first
    [ apply respects_ret; exact step_refl
    | apply respects_raise; exact step_refl
    | apply respects_out_of_fuel; exact step_refl
    | apply respects_lift; exact step_refl
    | apply get_jedi_script_step
    | apply environment_for_request_step
    | apply sys_path_for_file_step
    | apply respects_bind; [exact step_trans | | intros ?] ].

Lemma get_jedi_script_for_definition_step (d : BaseDefinition) :
  respects R (_GetJediScriptForDefinition W rd d).
Proof. unfold _GetJediScriptForDefinition. compose. Qed.

Lemma same_name_step (d : BaseDefinition) :
  respects R (_GoToDefinitionsWithSameName W rd d).
Proof.
  unfold _GoToDefinitionsWithSameName.
  destruct (negb (truthy_opt (module_path d))); compose.
Qed.

Lemma traverse_step (previous definitions : list BaseDefinition) (keep : bool) :
  respects R (traverse W rd previous definitions keep).
Proof.
  revert definitions keep.
  induction previous as [| d rest IH]; intros definitions keep; simpl; compose.
  - apply same_name_step.
  - destruct a; apply IH.
Qed.

Lemma chase_step (fuel : nat) (definitions : list BaseDefinition) (keep : bool) :
  respects R (chase W fuel rd definitions keep).
Proof.
  revert definitions keep.
  induction fuel as [| fuel IH]; intros definitions keep; simpl;
    destruct keep; compose.
  - apply traverse_step.
  - apply IH.
Qed.

Lemma call_step_definition (fuel : nat) : respects R (_GoToDefinition W fuel rd).
Proof.
  unfold _GoToDefinition. compose; [apply chase_step |]. destruct a0; compose.
Qed.

Lemma call_step_type : respects R (_GoToType W rd).
Proof. unfold _GoToType. compose. destruct (goto_definitions W a); compose. Qed.

Lemma call_step_references : respects R (_GoToReferences W rd).
Proof. unfold _GoToReferences. compose. destruct (usages W a); compose. Qed.

Lemma call_step_get_type : respects R (_GetType W rd).
Proof. unfold _GetType. compose. cbv zeta. destruct (truthy _); compose. Qed.

Lemma call_step_get_doc : respects R (_GetDoc W rd).
Proof. unfold _GetDoc. compose. cbv zeta. destruct (truthy _); compose. Qed.

Lemma call_step_candidates : respects R (ComputeCandidatesInner W rd).
Proof. unfold ComputeCandidatesInner. compose. Qed.

Lemma call_step_ready : respects R (OnFileReadyToParse W rd).
Proof. unfold OnFileReadyToParse. compose. Qed.

End Calls.

Lemma after_evolves (W : World) (call : Call) (s : Completer) :
  evolves s (after W call s).
Proof.
  destruct call as [rd | rd | fuel rd | rd | rd | rd | rd]; simpl.
  - apply (call_step_ready W rd s).
  - apply (call_step_candidates W rd s).
  - apply (call_step_definition W rd fuel s).
  - apply (call_step_type W rd s).
  - apply (call_step_references W rd s).
  - apply (call_step_get_type W rd s).
  - apply (call_step_get_doc W rd s).
Qed.

Lemma after_all_evolves (W : World) (calls : list Call) (s : Completer) :
  evolves s (after_all W calls s).
Proof.
  revert s. induction calls as [| call rest IH]; intros s; simpl.
  - apply evolves_refl.
  - eapply evolves_trans; [apply after_evolves | apply IH].
Qed.

(** ** Identities of environment objects *)

Lemma keeps_identities_same (s s1 : Completer) :
  _environment_for_interpreter_path s1 = _environment_for_interpreter_path s ->
  next_env_id s1 = next_env_id s ->
  keeps_identities s s1.
Proof. intros Hm Hn [H1 H2]. split; rewrite Hm, ?Hn; assumption. Qed.

Lemma keeps_identities_refl (s : Completer) : keeps_identities s s.
Proof. intros H. exact H. Qed.

Lemma keeps_identities_trans (s s1 s2 : Completer) :
  keeps_identities s s1 -> keeps_identities s1 s2 -> keeps_identities s s2.
Proof. unfold keeps_identities. auto. Qed.

Section Identities.

Variable W : World.

Lemma environment_for_interpreter_path_identities (path : option string) :
  respects keeps_identities (_EnvironmentForInterpreterPath W path).
Proof.
  intros s.
  destruct (resolve_interpreter_path_cases W path s) as [[k Hk] | [e He]].
  - rewrite (environment_for_interpreter_path_run W _ _ _ Hk).
    destruct (_environment_for_interpreter_path s !! k) eqn:E;
      [apply keeps_identities_refl |].
    intros [Hlt Hinj]. split; simpl.
    + intros key e. destruct (decide (k = key)) as [<- | Hne].
      * rewrite lookup_insert_eq. intros [= <-]. simpl. lia.
      * rewrite lookup_insert_ne by exact Hne. intros H. apply Hlt in H. lia.
    + intros key1 key2 e1 e2.
      destruct (decide (k = key1)) as [<- | Hne1];
        destruct (decide (k = key2)) as [<- | Hne2];
        rewrite ?lookup_insert_eq, ?lookup_insert_ne by assumption.
      * reflexivity.
      * intros [= <-] H2 Hid. apply Hlt in H2. simpl in Hid. lia.
      * intros H1 [= <-] Hid. apply Hlt in H1. simpl in Hid. lia.
      * apply Hinj.
  - rewrite (environment_for_interpreter_path_raise W _ _ _ He).
    apply keeps_identities_refl.
Qed.

Variable rd : RequestData.

Ltac compose_identities :=
  repeat first
    [ apply respects_ret; exact keeps_identities_refl
    | apply respects_raise; exact keeps_identities_refl
    | apply respects_out_of_fuel; exact keeps_identities_refl
    | apply respects_lift; exact keeps_identities_refl
    | apply respects_get; exact keeps_identities_refl
    | apply respects_modify; intros ?; apply keeps_identities_same; reflexivity
    | apply environment_for_interpreter_path_identities
    | apply respects_bind; [exact keeps_identities_trans | | intros ?]
    | progress cbv zeta
    | match goal with
      | |- respects _ (match ?x with _ => _ end) => destruct x
      | |- respects _ (if ?x then _ else _) => destruct x
      end ].

Lemma settings_for_request_identities :
  respects keeps_identities (_SettingsForRequest W rd).
Proof. unfold _SettingsForRequest. compose_identities. Qed.

Lemma environment_for_request_identities :
  respects keeps_identities (_EnvironmentForRequest W rd).
Proof.
  unfold _EnvironmentForRequest. compose_identities.
Qed.

Lemma get_sys_path_identities (environment : Environment) :
  respects keeps_identities (_GetSysPath W rd environment).
Proof.
  unfold _GetSysPath. compose_identities.
Qed.

Lemma sys_path_for_file_identities (environment : Environment) :
  respects keeps_identities (_SysPathForFile W rd environment).
Proof.
  unfold _SysPathForFile. compose_identities.
Qed.

Lemma get_jedi_script_identities :
  respects keeps_identities (_GetJediScript W rd).
Proof. unfold _GetJediScript. compose_identities. Qed.

Lemma get_jedi_script_for_definition_identities (d : BaseDefinition) :
  respects keeps_identities (_GetJediScriptForDefinition W rd d).
Proof. unfold _GetJediScriptForDefinition. compose_identities. Qed.

Lemma same_name_identities (d : BaseDefinition) :
  respects keeps_identities (_GoToDefinitionsWithSameName W rd d).
Proof. unfold _GoToDefinitionsWithSameName. compose_identities. Qed.

Lemma traverse_identities (previous definitions : list BaseDefinition) (keep : bool) :
  respects keeps_identities (traverse W rd previous definitions keep).
Proof.
  revert definitions keep.
  induction previous as [| d rest IH]; intros definitions keep; simpl.
  - compose_identities.
  - apply respects_bind;
      [exact keeps_identities_trans | apply same_name_identities |].
    intros l. destruct l; apply IH.
Qed.

Lemma chase_identities (fuel : nat) (definitions : list BaseDefinition) (keep : bool) :
  respects keeps_identities (chase W fuel rd definitions keep).
Proof.
  revert definitions keep.
  induction fuel as [| fuel IH]; intros definitions keep; simpl; destruct keep;
    try (compose_identities; fail).
  apply respects_bind;
    [exact keeps_identities_trans | apply traverse_identities | intros round; apply IH].
Qed.

Lemma go_to_definition_identities (fuel : nat) :
  respects keeps_identities (_GoToDefinition W fuel rd).
Proof.
  unfold _GoToDefinition.
  apply respects_bind;
    [exact keeps_identities_trans | apply get_jedi_script_identities | intros script].
  apply respects_bind;
    [exact keeps_identities_trans | apply chase_identities | intros definitions].
  compose_identities.
Qed.

Lemma go_to_type_identities : respects keeps_identities (_GoToType W rd).
Proof. unfold _GoToType. compose_identities. Qed.

Lemma go_to_references_identities : respects keeps_identities (_GoToReferences W rd).
Proof. unfold _GoToReferences. compose_identities. Qed.

Lemma get_type_identities : respects keeps_identities (_GetType W rd).
Proof. unfold _GetType. compose_identities. Qed.

Lemma get_doc_identities : respects keeps_identities (_GetDoc W rd).
Proof. unfold _GetDoc. compose_identities. Qed.

Lemma compute_candidates_identities :
  respects keeps_identities (ComputeCandidatesInner W rd).
Proof. unfold ComputeCandidatesInner. compose_identities. Qed.

Lemma file_ready_identities : respects keeps_identities (OnFileReadyToParse W rd).
Proof. unfold OnFileReadyToParse. compose_identities. Qed.

End Identities.

Lemma after_identities (W : World) (call : Call) (s : Completer) :
  keeps_identities s (after W call s).
Proof.
  destruct call as [rd | rd | fuel rd | rd | rd | rd | rd]; simpl.
  - apply file_ready_identities.
  - apply compute_candidates_identities.
  - apply go_to_definition_identities.
  - apply go_to_type_identities.
  - apply go_to_references_identities.
  - apply get_type_identities.
  - apply get_doc_identities.
Qed.

Lemma after_all_identities (W : World) (calls : list Call) (s : Completer) :
  keeps_identities s (after_all W calls s).
Proof.
  revert s. induction calls as [| call rest IH]; intros s; simpl.
  - apply keeps_identities_refl.
  - eapply keeps_identities_trans; [apply after_identities | apply IH].
Qed.

Lemma init_identities : identities_distinct __init__.
Proof. split; simpl; intros *; rewrite lookup_empty; discriminate. Qed.

(** ** The chase loop, without the state *)

Section FrontierFacts.

Variable next : BaseDefinition -> list BaseDefinition.

(** One pass of the [for] loop: every definition is replaced by what it
    advances to, and the flag is raised when one of them moved. *)
Lemma sweep_spec (previous definitions : list BaseDefinition) (keep : bool) :
  sweep next previous definitions keep =
  (definitions ++ flat_map (advance next) previous,
   keep || existsb (fun d => negb (terminal next d)) previous).
Proof.
  revert definitions keep.
  induction previous as [| d rest IH]; intros definitions keep; simpl.
  - rewrite app_nil_r, orb_false_r. reflexivity.
  - unfold advance at 1, terminal at 1.
    destruct (next d) as [| d' l] eqn:E; rewrite IH; simpl.
    + rewrite <- app_assoc. reflexivity.
    + rewrite <- app_assoc, orb_true_r. reflexivity.
Qed.

Lemma rounds_step (fuel : nat) (definitions : list BaseDefinition) :
  rounds next (S fuel) definitions true =
  rounds next fuel (flat_map (advance next) definitions)
    (existsb (fun d => negb (terminal next d)) definitions).
Proof. simpl. rewrite sweep_spec. reflexivity. Qed.

Lemma advance_terminal (definitions : list BaseDefinition) :
  Forall (fun d => terminal next d = true) definitions ->
  flat_map (advance next) definitions = definitions
  /\ existsb (fun d => negb (terminal next d)) definitions = false.
Proof.
  induction 1 as [| d l Hd _ [IH1 IH2]]; [split; reflexivity |].
  simpl. rewrite IH1, IH2, Hd. unfold advance. unfold terminal in Hd.
  destruct (next d); [split; reflexivity | discriminate].
Qed.

(** A frontier of terminal definitions is final after one round. *)
Lemma rounds_settled (fuel : nat) (definitions : list BaseDefinition) :
  Forall (fun d => terminal next d = true) definitions ->
  rounds next (S fuel) definitions true = Some definitions.
Proof.
  intros H. rewrite rounds_step.
  destruct (advance_terminal _ H) as [-> ->].
  destruct fuel; reflexivity.
Qed.

(** More fuel does not change a result. *)
Lemma rounds_more_fuel (fuel extra : nat) (definitions result : list BaseDefinition)
    (keep : bool) :
  rounds next fuel definitions keep = Some result ->
  rounds next (fuel + extra) definitions keep = Some result.
Proof.
  revert definitions keep.
  induction fuel as [| fuel IH]; intros definitions keep; simpl.
  - destruct keep; [discriminate |]. intros H. destruct extra; exact H.
  - destruct keep; [apply IH | auto].
Qed.

Lemma rounds_fuel_le (fuel fuel' : nat) (definitions result : list BaseDefinition)
    (keep : bool) :
  fuel <= fuel' ->
  rounds next fuel definitions keep = Some result ->
  rounds next fuel' definitions keep = Some result.
Proof.
  intros Hle H. replace fuel' with (fuel + (fuel' - fuel)) by lia.
  apply rounds_more_fuel, H.
Qed.

(** The loop never empties a frontier and never fills an empty one. *)
Lemma advance_nonempty (d : BaseDefinition) : advance next d <> [].
Proof. unfold advance. destruct (next d) eqn:E; [discriminate | rewrite <- E; congruence]. Qed.

Lemma flat_map_advance_nil (definitions : list BaseDefinition) :
  flat_map (advance next) definitions = [] <-> definitions = [].
Proof.
  split; [| intros ->; reflexivity].
  destruct definitions as [| d l]; [reflexivity |]. simpl.
  intros H. apply app_eq_nil in H as [H _]. destruct (advance_nonempty _ H).
Qed.

Lemma rounds_nil (fuel : nat) (definitions result : list BaseDefinition) (keep : bool) :
  rounds next fuel definitions keep = Some result ->
  (result = [] <-> definitions = []).
Proof.
  revert definitions keep.
  induction fuel as [| fuel IH]; intros definitions keep; simpl.
  - destruct keep; [discriminate |]. intros [= <-]. reflexivity.
  - destruct keep; [| intros [= <-]; reflexivity].
    rewrite sweep_spec. simpl. intros H. apply IH in H.
    rewrite H. apply flat_map_advance_nil.
Qed.

Lemma none_moves (definitions : list BaseDefinition) :
  existsb (fun d => negb (terminal next d)) definitions = false ->
  Forall (fun d => terminal next d = true) definitions.
Proof.
  induction definitions as [| d l IH]; simpl; [constructor |].
  intros H. apply orb_false_elim in H as [Hd Hl].
  constructor; [| apply IH, Hl].
  destruct (terminal next d); [reflexivity | discriminate].
Qed.

(** What the loop returns is a frontier of terminal definitions. *)
Lemma rounds_terminal (fuel : nat) (definitions result : list BaseDefinition) :
  rounds next fuel definitions true = Some result ->
  Forall (fun d => terminal next d = true) result.
Proof.
  revert definitions.
  induction fuel as [| fuel IH]; intros definitions; [discriminate |].
  rewrite rounds_step.
  destruct (existsb (fun d => negb (terminal next d)) definitions) eqn:E.
  - apply IH.
  - apply none_moves in E.
    destruct (advance_terminal _ E) as [-> _].
    destruct fuel; simpl; intros [= <-]; exact E.
Qed.

Section Measure.

Variable rank : BaseDefinition -> nat.

Hypothesis rank_decreases :
  forall d d', In d' (next d) -> rank d' < rank d.

(** With a measure that every re-resolution lowers, a frontier whose moving
    members have measure at most [n] is final within [n + 1] rounds. *)
Lemma rounds_within (n : nat) (definitions : list BaseDefinition) :
  (forall d, In d definitions -> terminal next d = true \/ rank d <= n) ->
  exists result, rounds next (S n) definitions true = Some result.
Proof.
  revert definitions.
  induction n as [| n IH]; intros definitions H.
  - exists definitions. apply rounds_settled, List.Forall_forall. intros d Hd.
    destruct (H d Hd) as [T | R]; [exact T |].
    unfold terminal. destruct (next d) as [| d' l] eqn:E; [reflexivity |].
    assert (rank d' < rank d) by (apply rank_decreases; rewrite E; left; reflexivity).
    lia.
  - rewrite rounds_step.
    destruct (existsb (fun d => negb (terminal next d)) definitions).
    + apply IH. intros d' Hd'.
      apply in_flat_map in Hd' as (d & Hd & Hin).
      unfold advance in Hin. destruct (next d) as [| x l] eqn:E.
      * destruct Hin as [<- | []]. left. unfold terminal. rewrite E. reflexivity.
      * right. rewrite <- E in Hin. apply rank_decreases in Hin.
        destruct (H d Hd) as [T | R]; [| lia].
        unfold terminal in T. rewrite E in T. discriminate.
    + eexists. reflexivity.
Qed.

Lemma highest_bound (definitions : list BaseDefinition) (d : BaseDefinition) :
  In d definitions -> rank d <= highest rank definitions.
Proof.
  induction definitions as [| x l IH]; simpl; [intros [] |].
  intros [-> | H]; [| apply IH in H]; lia.
Qed.

Lemma rounds_terminate (fuel : nat) (definitions : list BaseDefinition) :
  highest rank definitions < fuel ->
  exists result, rounds next fuel definitions true = Some result.
Proof.
  intros Hfuel.
  destruct (rounds_within (highest rank definitions) definitions) as [result Hr].
  - intros d Hd. right. apply highest_bound, Hd.
  - exists result. apply (rounds_fuel_le (S (highest rank definitions))); [lia | exact Hr].
Qed.

End Measure.

End FrontierFacts.

(** ** Navigation *)

Section Navigation.

Variable W : World.

Section Warm.

Variable rd : RequestData.
Variable s : Completer.
Variable environment : Environment.
Variable search_path : list string.
Hypothesis caches_filled : warm s rd environment search_path.

Local Abbreviation next := (same_name W rd environment search_path).

Lemma same_name_hit (d : BaseDefinition) :
  _GoToDefinitionsWithSameName W rd d s = (s, Ret (next d)).
Proof.
  unfold _GoToDefinitionsWithSameName, next, same_name.
  destruct (negb (truthy_opt (module_path d))); [reflexivity |].
  rewrite (bind_run _ _ _ _ _
             (get_jedi_script_for_definition_hit W _ _ _ _ d caches_filled)).
  reflexivity.
Qed.

Lemma traverse_hit (previous definitions : list BaseDefinition) (keep : bool) :
  traverse W rd previous definitions keep s =
  (s, Ret (sweep next previous definitions keep)).
Proof.
  revert definitions keep.
  induction previous as [| d rest IH]; intros definitions keep; simpl; [reflexivity |].
  rewrite (bind_run _ _ _ _ _ (same_name_hit d)).
  destruct (next d); apply IH.
Qed.

Lemma chase_hit (fuel : nat) (definitions : list BaseDefinition) (keep : bool) :
  chase W fuel rd definitions keep s =
  (s, match rounds next fuel definitions keep with
      | Some result => Ret result
      | None => OutOfFuel
      end).
Proof.
  revert definitions keep.
  induction fuel as [| fuel IH]; intros definitions keep; simpl.
  - destruct keep; reflexivity.
  - destruct keep; [| reflexivity].
    rewrite (bind_run _ _ _ _ _ (traverse_hit definitions [] false)).
    apply IH.
Qed.

End Warm.

(** [_GoToDefinition] once the session at the cursor is there: the loop runs
    on the re-resolution function of the request, in the state the session
    left. *)
Lemma goto_definition_run (fuel : nat) (rd : RequestData) (s s1 : Completer)
    (script : Script) :
  _GetJediScript W rd s = (s1, Ret script) ->
  _GoToDefinition W fuel rd s =
  (s1, match rounds (same_name W rd (script_environment script) (script_sys_path script))
               fuel (goto_assignments W script) true with
       | Some (d :: l) => answer (_BuildGoToResponse (d :: l))
       | Some [] => Raise (RuntimeError "Can't jump to definition.")
       | None => OutOfFuel
       end).
Proof.
  intros H. unfold _GoToDefinition. rewrite (bind_run _ _ _ _ _ H).
  apply get_jedi_script_warm in H as [Hwarm _].
  unfold bind. rewrite (chase_hit _ _ _ _ Hwarm).
  destruct (rounds _ fuel (goto_assignments W script) true) as [[| d l] |]; reflexivity.
Qed.

(** The filter keeps the name and moves the position. *)
Lemma same_name_elsewhere_spec (d d' : BaseDefinition) :
  same_name_elsewhere d d' = true <-> name d' = name d /\ position d' <> position d.
Proof.
  unfold same_name_elsewhere, position.
  rewrite andb_true_iff, !orb_true_iff, !negb_true_iff, bool_decide_eq_true,
    !bool_decide_eq_false.
  split; intros [Hn Hp]; (split; [exact Hn |]).
  - intros [= Hm Hl Hc]. tauto.
  - destruct (decide (module_path d' = module_path d)) as [Hm |]; [| tauto].
    destruct (decide (line d' = line d)) as [Hl |]; [| tauto].
    destruct (decide (column d' = column d)) as [Hc |]; [| tauto].
    exfalso. apply Hp. congruence.
Qed.

Lemma same_name_moves (rd : RequestData) (environment : Environment)
    (search_path : list string) (d d' : BaseDefinition) :
  In d' (same_name W rd environment search_path d) ->
  name d' = name d /\ position d' <> position d.
Proof.
  unfold same_name. destruct (negb (truthy_opt (module_path d))); [intros [] |].
  intros H. apply filter_In in H as [_ H]. apply same_name_elsewhere_spec, H.
Qed.

(** The re-resolution of a definition is decided by its name and its
    position. *)
Lemma same_name_ext (rd : RequestData) (environment : Environment)
    (search_path : list string) (d1 d2 : BaseDefinition) :
  name d1 = name d2 -> position d1 = position d2 ->
  same_name W rd environment search_path d1 = same_name W rd environment search_path d2.
Proof.
  unfold position. intros Hn [= Hm Hl Hc].
  unfold same_name, session, same_name_elsewhere.
  rewrite Hn, Hm, Hl, Hc. reflexivity.
Qed.

(** A definition whose session finds nothing but definitions at its own
    position has nowhere to go. *)
Lemma same_name_self (rd : RequestData) (environment : Environment)
    (search_path : list string) (d : BaseDefinition) :
  Forall (fun d' => position d' = position d)
    (goto_assignments W (session W rd environment search_path d)) ->
  same_name W rd environment search_path d = [].
Proof.
  intros H. unfold same_name.
  destruct (negb (truthy_opt (module_path d))); [reflexivity |].
  induction H as [| d' l Hd' _ IH]; [reflexivity |]. simpl.
  destruct (same_name_elsewhere d d') eqn:E; [| exact IH].
  apply same_name_elsewhere_spec in E as [_ E]. contradiction.
Qed.

End Navigation.

(** ** Building a go-to response *)

(** What [_BuildGoToResponse] answers for a single definition. *)
Lemma build_go_to_response_one (d : BaseDefinition) :
  answer (_BuildGoToResponse [d])
  = match column d with
    | Some c => Ret (GoToOne (BuildGoToResponse (module_path d) (line d) (c + 1)%Z None))
    | None => Raise TypeError
    end.
Proof. unfold _BuildGoToResponse, plus_one. destruct (column d); reflexivity. Qed.

(** The only exception of [_BuildGoToResponse] is the [TypeError]. *)
Lemma append_gotos_error (definitions : list BaseDefinition) (gotos : list GoTo)
    (e : exn) :
  append_gotos definitions gotos = Error e -> e = TypeError.
Proof.
  revert gotos. induction definitions as [| d rest IH]; intros gotos; simpl.
  - discriminate.
  - unfold plus_one. destruct (column d); [apply IH |]. intros [= <-]. reflexivity.
Qed.

Lemma build_go_to_response_error (definitions : list BaseDefinition) (e : exn) :
  _BuildGoToResponse definitions = Error e -> e = TypeError.
Proof.
  unfold _BuildGoToResponse.
  assert (Hmany : match append_gotos definitions [] with
                  | Ok gotos => Ok (GoToMany gotos)
                  | Error e0 => Error e0
                  end = Error e -> e = TypeError).
  { destruct (append_gotos definitions []) eqn:E; [discriminate |].
    intros [= <-]. apply (append_gotos_error _ _ _ E). }
  destruct definitions as [| d [| d' rest]]; try exact Hmany.
  unfold plus_one. destruct (column d); [discriminate |]. intros [= <-]. reflexivity.
Qed.

Lemma build_go_to_response_not_runtime (definitions : list BaseDefinition)
    (message : string) :
  answer (_BuildGoToResponse definitions) <> Raise (RuntimeError message).
Proof.
  destruct (_BuildGoToResponse definitions) as [r | e] eqn:E; [discriminate |].
  apply build_go_to_response_error in E. subst e. discriminate.
Qed.

(** What the loop of [_BuildGoToResponse] appends: one location per
    definition, in order, when every definition has a column. *)
Lemma append_gotos_ok (definitions : list BaseDefinition) (gotos result : list GoTo) :
  append_gotos definitions gotos = Ok result ->
  exists appended : list GoTo,
    result = gotos ++ appended
    /\ Forall2 (fun d g => goto_filepath g = module_path d
                           /\ goto_line_num g = line d
                           /\ column d = Some (goto_column_num g - 1)%Z
                           /\ goto_description g = Some (description d))
         definitions appended.
Proof.
  revert gotos. induction definitions as [| d rest IH]; intros gotos; simpl.
  - intros [= <-]. exists []. rewrite app_nil_r. split; [reflexivity | constructor].
  - unfold plus_one. destruct (column d) as [c |] eqn:Hc; [| discriminate].
    intros H. destruct (IH _ H) as (appended & -> & Hall).
    eexists (_ :: appended). rewrite <- app_assoc. split; [reflexivity |].
    constructor; [| exact Hall]. simpl. repeat split; try reflexivity.
    rewrite Hc. f_equal. lia.
Qed.

Lemma append_gotos_error_iff (definitions : list BaseDefinition) (gotos : list GoTo) :
  (exists e, append_gotos definitions gotos = Error e)
  <-> exists d, In d definitions /\ column d = None.
Proof.
  revert gotos. induction definitions as [| d rest IH]; intros gotos; simpl.
  - split; [intros [e H]; discriminate | intros (d & [] & _)].
  - unfold plus_one. destruct (column d) as [c |] eqn:Hc.
    + rewrite IH. split.
      * intros (d' & Hin & H). exists d'. auto.
      * intros (d' & [<- | Hin] & H); [congruence |]. exists d'. auto.
    + split; [| intros _; eexists; reflexivity].
      intros _. exists d. auto.
Qed.

(** The locations that [_BuildGoToResponse] returns, against the
    definitions it was given. *)
Lemma build_go_to_response_ok (definitions : list BaseDefinition) (r : Response) :
  _BuildGoToResponse definitions = Ok r ->
  Forall2 (fun d g => goto_filepath g = module_path d
                      /\ goto_line_num g = line d
                      /\ column d = Some (goto_column_num g - 1)%Z
                      /\ goto_description g
                         = match definitions with
                           | [_] => None
                           | _ => Some (description d)
                           end)
    definitions (locations r)
  /\ ((exists g, r = GoToOne g) <-> length definitions = 1).
Proof.
  unfold _BuildGoToResponse.
  assert (Hmany : forall l : list BaseDefinition,
             match append_gotos l [] with
             | Ok gotos => Ok (GoToMany gotos)
             | Error e => Error e
             end = Ok r ->
             Forall2 (fun d g => goto_filepath g = module_path d
                                 /\ goto_line_num g = line d
                                 /\ column d = Some (goto_column_num g - 1)%Z
                                 /\ goto_description g = Some (description d))
               l (locations r)
             /\ ~ exists g, r = GoToOne g).
  { intros l. destruct (append_gotos l []) as [gotos | e] eqn:E; [| discriminate].
    intros [= <-]. apply append_gotos_ok in E as (appended & -> & Hall).
    split; [exact Hall |]. intros [g H]. discriminate. }
  destruct definitions as [| d [| d' rest]].
  - intros H. apply Hmany in H as [Hall Hnot]. split; [exact Hall |].
    split; [intros H; contradiction | discriminate].
  - unfold plus_one. destruct (column d) as [c |] eqn:Hc; [| discriminate].
    intros [= <-]. simpl. split; [| split; [reflexivity | eexists; reflexivity]].
    constructor; [| constructor]. simpl. repeat split; try reflexivity.
    rewrite Hc. f_equal. lia.
  - intros H. apply Hmany in H as [Hall Hnot]. split; [exact Hall |].
    split; [intros H; contradiction | discriminate].
Qed.

(** ** Go-to-definition follows an alias chain to its end *)

(** C1, on the code.  The cursor is on [len], a builtin: goto-assignments
    finds the single definition [len_], which has no module path, no line
    and no column.  It is a direct definition: its same-name re-resolution
    is empty, in every state.  [_GoToDefinition] does not return it:
    whatever the number of rounds, it ends with the [TypeError] of
    [definition.column + 1]. *)
Theorem goto_definition_builtin_type_error :
  (forall script : Script, goto_assignments Sample.builtin script = [Sample.len_])
  /\ (forall s : Completer,
        _GoToDefinitionsWithSameName Sample.builtin Sample.request Sample.len_ s
        = (s, Ret []))
  /\ (forall fuel : nat,
        snd (_GoToDefinition Sample.builtin (S fuel) Sample.request __init__)
        = Raise TypeError).
Proof.
  split; [reflexivity |]. split; [reflexivity |]. intros fuel.
  destruct (get_jedi_script_returns Sample.builtin Sample.request __init__
              Sample.session_at_cursor) as (s1 & E & _);
    [vm_compute; reflexivity |].
  rewrite (goto_definition_run _ (S fuel) _ _ _ _ E). cbn [snd].
  rewrite (rounds_fuel_le _ 1 (S fuel) _ [Sample.len_] _);
    [reflexivity | lia | reflexivity].
Qed.

(** X20.  Let the session at the cursor return.  If goto-assignments at the
    cursor finds the single definition [A], the same-name re-resolution of
    [A] is [B], that of [B] is [C] and that of [C] is empty, then
    [_GoToDefinition], given three rounds or more, ends with the response
    built for [C] alone, whose position is neither [A]'s nor [B]'s: the
    single location of [C] when [C] has a column, a [TypeError] when it has
    none.  If goto-assignments finds a single definition [D] whose
    same-name re-resolution is empty, [_GoToDefinition] ends in the same
    way for [D] as soon as it is given one round. *)
Theorem goto_definition_alias_chain (W : World) (rd : RequestData)
    (s s1 : Completer) (script : Script) :
  _GetJediScript W rd s = (s1, Ret script) ->
  (forall (A B C : BaseDefinition) (fuel : nat),
      goto_assignments W script = [A] ->
      snd (_GoToDefinitionsWithSameName W rd A s1) = Ret [B] ->
      snd (_GoToDefinitionsWithSameName W rd B s1) = Ret [C] ->
      snd (_GoToDefinitionsWithSameName W rd C s1) = Ret [] ->
      3 <= fuel ->
      _GoToDefinition W fuel rd s =
        (s1, match column C with
             | Some c => Ret (GoToOne (BuildGoToResponse (module_path C) (line C)
                                         (c + 1)%Z None))
             | None => Raise TypeError
             end)
      /\ position C <> position A /\ position C <> position B)
  /\ (forall (D : BaseDefinition) (fuel : nat),
      goto_assignments W script = [D] ->
      snd (_GoToDefinitionsWithSameName W rd D s1) = Ret [] ->
      1 <= fuel ->
      _GoToDefinition W fuel rd s =
        (s1, match column D with
             | Some c => Ret (GoToOne (BuildGoToResponse (module_path D) (line D)
                                         (c + 1)%Z None))
             | None => Raise TypeError
             end)).
Proof.
  intros Hscript.
  pose proof (goto_definition_run W) as Hrun.
  destruct (get_jedi_script_warm W _ _ _ _ Hscript) as [Hwarm _].
  pose proof (same_name_hit W _ _ _ _ Hwarm) as Hhit.
  pose proof (same_name_moves W rd (script_environment script) (script_sys_path script))
    as Hmoves.
  pose proof (same_name_ext W rd (script_environment script) (script_sys_path script))
    as Hext.
  set (next := same_name W rd (script_environment script) (script_sys_path script)) in *.
  split.
  - intros A B C fuel H0 HA HB HC Hfuel.
    rewrite Hhit in HA, HB, HC. simpl in HA, HB, HC.
    injection HA as HA. injection HB as HB. injection HC as HC.
    assert (Hthree : rounds next 3 [A] true = Some [C]).
    { simpl. rewrite HA. simpl. rewrite HB. simpl. rewrite HC. reflexivity. }
    split.
    + rewrite (Hrun fuel _ _ _ _ Hscript). fold next. rewrite H0.
      rewrite (rounds_fuel_le next 3 fuel _ _ _ Hfuel Hthree).
      rewrite build_go_to_response_one. reflexivity.
    + assert (HBA : name B = name A /\ position B <> position A)
        by (apply Hmoves; rewrite HA; left; reflexivity).
      assert (HCB : name C = name B /\ position C <> position B)
        by (apply Hmoves; rewrite HB; left; reflexivity).
      split; [| tauto].
      intros Hpos. assert (Heq : next C = next A) by (apply Hext; [| exact Hpos]; intuition congruence).
      rewrite HA, HC in Heq. discriminate.
  - intros D fuel H0 HD Hfuel.
    rewrite Hhit in HD. simpl in HD. injection HD as HD.
    assert (Hone : rounds next 1 [D] true = Some [D]).
    { simpl. rewrite HD. reflexivity. }
    rewrite (Hrun fuel _ _ _ _ Hscript). fold next. rewrite H0.
    rewrite (rounds_fuel_le next 1 fuel _ _ _ Hfuel Hone).
    rewrite build_go_to_response_one. reflexivity.
Qed.

(** The chain [a_], [b_], [c_] of the sample engine, and its direct
    definition. *)
Lemma goto_definition_alias_chain_witness :
  snd (_GoToDefinition Sample.chain 3 Sample.request __init__)
  = Ret (GoToOne (mkGoTo (Some "b.py") (Some 1%Z) 1 None))
  /\ snd (_GoToDefinition Sample.direct 1 Sample.request __init__)
     = Ret (GoToOne (mkGoTo (Some "b.py") (Some 1%Z) 1 None)).
Proof.
  split.
  - destruct (get_jedi_script_returns Sample.chain Sample.request __init__
                Sample.session_at_cursor) as (s1 & E & Hwarm);
      [vm_compute; reflexivity |].
    destruct (goto_definition_alias_chain _ _ _ _ _ E) as [Hchain _].
    destruct (Hchain Sample.a_ Sample.b_ Sample.c_ 3) as [-> _];
      rewrite ?(same_name_hit _ _ _ _ _ Hwarm); vm_compute; reflexivity.
  - destruct (get_jedi_script_returns Sample.direct Sample.request __init__
                Sample.session_at_cursor) as (s1 & E & Hwarm);
      [vm_compute; reflexivity |].
    destruct (goto_definition_alias_chain _ _ _ _ _ E) as [_ Hdirect].
    rewrite (Hdirect Sample.c_ 1);
      rewrite ?(same_name_hit _ _ _ _ _ Hwarm); vm_compute; reflexivity.
Defined.

(** ** Termination of the chase *)

(** The engine that sends [a_] to [b_] and [b_] back to [a_] keeps the loop
    going: whatever the number of rounds allowed, [_GoToDefinition] has not
    returned. *)
Lemma chase_cycle_never_returns :
  ~ exists fuel : nat,
      snd (_GoToDefinition Sample.cycle fuel Sample.request __init__) <> OutOfFuel.
Proof.
  intros [fuel H]. apply H. clear H.
  destruct (get_jedi_script_returns Sample.cycle Sample.request __init__
              Sample.session_at_cursor) as (s1 & E & _);
    [vm_compute; reflexivity |].
  rewrite (goto_definition_run _ fuel _ _ _ _ E). cbn [snd].
  match goal with
  | |- context [rounds ?f _ ?l _] =>
      assert (Ha : f Sample.a_ = [Sample.b_]) by (vm_compute; reflexivity);
      assert (Hb : f Sample.b_ = [Sample.a_]) by (vm_compute; reflexivity);
      assert (H0 : l = [Sample.a_]) by (vm_compute; reflexivity);
      rewrite H0; clear H0; set (next := f) in *
  end.
  assert (Hloop : forall n, rounds next n [Sample.a_] true = None
                            /\ rounds next n [Sample.b_] true = None).
  { induction n as [| n [IHa IHb]]; [split; reflexivity |].
    split; simpl; [rewrite Ha | rewrite Hb]; simpl; assumption. }
  destruct (Hloop fuel) as [-> _]. reflexivity.
Qed.

(** C2 (amended).  Let the session at the cursor return.  (1) Every
    definition that the same-name re-resolution of [d] keeps has the name
    of [d] and a position other than [d]'s: the loop never moves to the
    position it came from.  (2) A definition whose own session finds only
    definitions at its own position re-resolves to nothing, so the loop
    keeps it.  (3) If some measure [rank] is lowered by every same-name
    re-resolution, the loop ends within [highest rank + 1] rounds, on a
    frontier of definitions that re-resolve to nothing, and
    [_GoToDefinition] returns or raises. *)
Theorem chase_terminates_when_rank_decreases (W : World) (rd : RequestData)
    (s s1 : Completer) (script : Script) :
  _GetJediScript W rd s = (s1, Ret script) ->
  (forall (d : BaseDefinition) (l : list BaseDefinition),
      snd (_GoToDefinitionsWithSameName W rd d s1) = Ret l ->
      Forall (fun d' => name d' = name d /\ position d' <> position d) l)
  /\ (forall (d : BaseDefinition) (own : Script),
       snd (_GetJediScriptForDefinition W rd d s1) = Ret own ->
       Forall (fun d' => position d' = position d) (goto_assignments W own) ->
       snd (_GoToDefinitionsWithSameName W rd d s1) = Ret [])
  /\ (forall (rank : BaseDefinition -> nat) (fuel : nat),
       (forall (d d' : BaseDefinition) (l : list BaseDefinition),
           snd (_GoToDefinitionsWithSameName W rd d s1) = Ret l ->
           In d' l -> rank d' < rank d) ->
       highest rank (goto_assignments W script) < fuel ->
       (exists definitions,
           chase W fuel rd (goto_assignments W script) true s1 = (s1, Ret definitions)
           /\ Forall (fun d => snd (_GoToDefinitionsWithSameName W rd d s1) = Ret [])
                definitions)
       /\ snd (_GoToDefinition W fuel rd s) <> OutOfFuel).
Proof.
  intros Hscript.
  destruct (get_jedi_script_warm W _ _ _ _ Hscript) as [Hwarm _].
  pose proof (same_name_hit W _ _ _ _ Hwarm) as Hhit.
  split; [| split].
  - intros d l Hl. rewrite Hhit in Hl. injection Hl as <-.
    apply List.Forall_forall. intros d' Hd'. eapply same_name_moves, Hd'.
  - intros d own Hown Hself. rewrite Hhit. cbn [snd]. f_equal.
    rewrite (get_jedi_script_for_definition_hit W _ _ _ _ d Hwarm) in Hown.
    injection Hown as <-. apply same_name_self, Hself.
  - intros rank fuel Hrank Hfuel.
    destruct (rounds_terminate
                (same_name W rd (script_environment script) (script_sys_path script))
                rank) with (fuel := fuel) (definitions := goto_assignments W script)
      as [result Hresult]; [| exact Hfuel |].
    { intros d d' Hin. apply (Hrank d d' _ (f_equal snd (Hhit d))), Hin. }
    split.
    + exists result. rewrite (chase_hit W _ _ _ _ Hwarm), Hresult.
      split; [reflexivity |].
      apply rounds_terminal in Hresult.
      eapply List.Forall_impl; [| exact Hresult].
      intros d Hd. rewrite Hhit. cbn [snd]. f_equal.
      unfold terminal in Hd. destruct (same_name _ _ _ _ d); [reflexivity | discriminate].
    + rewrite (goto_definition_run W fuel _ _ _ _ Hscript), Hresult. cbn [snd].
      destruct result as [| d l]; [discriminate |].
      destruct (_BuildGoToResponse (d :: l)); discriminate.
Qed.

(** In the sample chain [hops] is such a measure: three rounds are enough
    from [a_]. *)
Lemma chase_terminates_when_rank_decreases_witness :
  snd (_GoToDefinition Sample.chain 3 Sample.request __init__) <> OutOfFuel.
Proof.
  destruct (get_jedi_script_returns Sample.chain Sample.request __init__
              Sample.session_at_cursor) as (s1 & E & Hwarm);
    [vm_compute; reflexivity |].
  destruct (chase_terminates_when_rank_decreases _ _ _ _ _ E) as (_ & _ & Hends).
  apply (Hends Sample.hops 3); [| vm_compute; lia].
  intros d d' l Hl Hin.
  rewrite (same_name_hit _ _ _ _ _ Hwarm) in Hl. injection Hl as <-.
  pose proof (same_name_moves _ _ _ _ _ _ Hin) as [_ Hmoved].
  unfold same_name in Hin.
  destruct (negb (truthy_opt (module_path d))); [destruct Hin |].
  apply filter_In in Hin as [Hin _].
  change (goto_assignments Sample.chain (session Sample.chain Sample.request _ _ d))
    with (if Sample.here d "main.py" 10 then [Sample.a_]
          else if Sample.here d "main.py" 1 then [Sample.b_]
          else if Sample.here d "a.py" 1 then [Sample.c_]
          else if Sample.here d "b.py" 1 then [Sample.c_]
          else []) in Hin.
  unfold Sample.hops at 2.
  destruct (Sample.here d "main.py" 10);
    [destruct Hin as [<- | []]; vm_compute; lia |].
  destruct (Sample.here d "main.py" 1);
    [destruct Hin as [<- | []]; vm_compute; lia |].
  destruct (Sample.here d "a.py" 1);
    [destruct Hin as [<- | []]; vm_compute; lia |].
  destruct (Sample.here d "b.py" 1) eqn:Hd; [| destruct Hin].
  destruct Hin as [<- | []]. exfalso. apply Hmoved.
  unfold Sample.here in Hd.
  apply andb_true_iff in Hd as [Hd Hc]. apply andb_true_iff in Hd as [Hp Hl].
  apply bool_decide_eq_true in Hp, Hl, Hc.
  unfold position. rewrite Hp, Hl, Hc. reflexivity.
Defined.

(** ** Empty results *)

(** C3, on the code.  The cursor is on a name that is bound to a number:
    goto-definitions finds the builtin [int_], which has no position.
    The result set is not empty, and [_GoToType] neither raises its own
    error nor returns a go-to response: it ends with the [TypeError] of
    [definition.column + 1]. *)
Theorem goto_type_builtin_type_error :
  (forall script : Script, goto_definitions Sample.builtin_type script = [Sample.int_])
  /\ snd (_GoToType Sample.builtin_type Sample.request __init__) = Raise TypeError.
Proof.
  split; [reflexivity |]. vm_compute. reflexivity.
Qed.

(** X21.  Let the session at the cursor return.  [_GoToDefinition] raises
    its "can't jump" error exactly when the chase ends on an empty set of
    definitions, which, given one round or more, is exactly when
    goto-assignments at the cursor finds nothing; [_GoToType] raises its
    error exactly when goto-definitions finds nothing, and
    [_GoToReferences] exactly when usages finds nothing; each of them
    otherwise ends as [_BuildGoToResponse] does on the definitions: with
    the go-to response, or with the [TypeError] of a definition that has no
    column. *)
Theorem navigation_error_iff_empty (W : World) (rd : RequestData)
    (s s1 : Completer) (script : Script) :
  _GetJediScript W rd s = (s1, Ret script) ->
  (forall (fuel : nat) (definitions : list BaseDefinition),
      snd (chase W fuel rd (goto_assignments W script) true s1) = Ret definitions ->
      (snd (_GoToDefinition W fuel rd s) = Raise (RuntimeError "Can't jump to definition.")
       <-> definitions = [])
      /\ (definitions <> [] ->
          snd (_GoToDefinition W fuel rd s) = answer (_BuildGoToResponse definitions)))
  /\ (forall fuel : nat,
        1 <= fuel ->
        snd (_GoToDefinition W fuel rd s) = Raise (RuntimeError "Can't jump to definition.")
        <-> goto_assignments W script = [])
  /\ ((snd (_GoToType W rd s) = Raise (RuntimeError "Can't jump to type definition.")
       <-> goto_definitions W script = [])
      /\ (goto_definitions W script <> [] ->
          snd (_GoToType W rd s) = answer (_BuildGoToResponse (goto_definitions W script))))
  /\ ((snd (_GoToReferences W rd s) = Raise (RuntimeError "Can't find references.")
       <-> usages W script = [])
      /\ (usages W script <> [] ->
          snd (_GoToReferences W rd s) = answer (_BuildGoToResponse (usages W script)))).
Proof.
  intros Hscript. split; [| split; [| split]].
  - intros fuel definitions Hchase.
    unfold _GoToDefinition. rewrite (bind_run _ _ _ _ _ Hscript).
    unfold bind.
    destruct (chase W fuel rd (goto_assignments W script) true s1) as [s2 o].
    simpl in Hchase. subst o.
    destruct definitions as [| d l]; cbn [snd lift raise].
    + split; [tauto | congruence].
    + split; [| reflexivity].
      split; [| discriminate]. intros H. exfalso.
      apply (build_go_to_response_not_runtime _ _ H).
  - intros fuel Hfuel. rewrite (goto_definition_run W fuel _ _ _ _ Hscript). cbn [snd].
    destruct (rounds _ fuel (goto_assignments W script) true) as [result |] eqn:E.
    + apply rounds_nil in E. rewrite <- E.
      destruct result as [| d l]; [split; congruence |].
      split; [| discriminate]. intros H. exfalso.
      apply (build_go_to_response_not_runtime _ _ H).
    + split; [discriminate |]. intros Hnil. rewrite Hnil in E.
      destruct fuel as [| fuel]; [lia |]. simpl in E.
      destruct fuel; discriminate.
  - unfold _GoToType. rewrite (bind_run _ _ _ _ _ Hscript).
    destruct (goto_definitions W script) as [| d l]; cbn [snd lift raise].
    + split; [tauto | congruence].
    + split; [| reflexivity].
      split; [| discriminate]. intros H. exfalso.
      apply (build_go_to_response_not_runtime _ _ H).
  - unfold _GoToReferences. rewrite (bind_run _ _ _ _ _ Hscript).
    destruct (usages W script) as [| d l]; cbn [snd lift raise].
    + split; [tauto | congruence].
    + split; [| reflexivity].
      split; [| discriminate]. intros H. exfalso.
      apply (build_go_to_response_not_runtime _ _ H).
Qed.

(** An engine that finds nothing makes the three queries raise; the sample
    engine with two usages makes [_GoToReferences] return both. *)
Lemma navigation_error_iff_empty_witness :
  (snd (_GoToDefinition Sample.quiet 1 Sample.request __init__)
   = Raise (RuntimeError "Can't jump to definition.")
   /\ snd (_GoToType Sample.quiet Sample.request __init__)
      = Raise (RuntimeError "Can't jump to type definition.")
   /\ snd (_GoToReferences Sample.quiet Sample.request __init__)
      = Raise (RuntimeError "Can't find references."))
  /\ snd (_GoToReferences Sample.typed Sample.request __init__)
     = Ret (GoToMany [mkGoTo (Some "main.py") (Some 1%Z) 1 (Some "x = 1");
                      mkGoTo (Some "a.py") (Some 1%Z) 1 (Some "x = 1")]).
Proof.
  split.
  - destruct (get_jedi_script_returns Sample.quiet Sample.request __init__
                Sample.session_at_cursor) as (s1 & E & Hwarm);
      [vm_compute; reflexivity |].
    destruct (navigation_error_iff_empty _ _ _ _ _ E)
      as (Hdef & _ & [Htype _] & [Href _]).
    destruct (Hdef 1 []) as [Hdef' _];
      [rewrite (chase_hit _ _ _ _ _ Hwarm); vm_compute; reflexivity |].
    split; [apply Hdef'; reflexivity |].
    split; [apply Htype | apply Href]; reflexivity.
  - destruct (get_jedi_script_returns Sample.typed Sample.request __init__
                Sample.session_at_cursor) as (s1 & E & _);
      [vm_compute; reflexivity |].
    destruct (navigation_error_iff_empty _ _ _ _ _ E) as (_ & _ & _ & [_ Href]).
    rewrite Href; [reflexivity | discriminate].
Defined.

(** ** Joined strings *)

Lemma append_empty (a b : string) :
  a +:+ b = EmptyString <-> a = EmptyString /\ b = EmptyString.
Proof.
  destruct a; simpl; [| split; [discriminate | intros [? _]; discriminate]].
  split; [auto | tauto].
Qed.

Lemma truthy_false (a : string) : truthy a = false <-> a = EmptyString.
Proof. destruct a; simpl; split; congruence. Qed.

(** A join is empty only for no part at all or for one empty part. *)
Lemma join_empty (sep : string) (parts : list string) :
  truthy sep = true ->
  (join sep parts = EmptyString <-> parts = [] \/ parts = [EmptyString]).
Proof.
  intros Hsep. destruct parts as [| p [| q rest]].
  - simpl. tauto.
  - simpl. split; [intros ->; tauto | intros [| [= ->]]; [discriminate | reflexivity]].
  - change (join sep (p :: q :: rest)) with (p +:+ sep +:+ join sep (q :: rest)).
    split; [| intros [|]; discriminate].
    intros H. apply append_empty in H as [_ H]. apply append_empty in H as [H _].
    subst sep. discriminate.
Qed.

(** Slicing off a prefix of six characters. *)
Lemma slice_param_prefix (text : string) : slice_from 6 ("param " +:+ text) = text.
Proof. reflexivity. Qed.

(** The slice [s[ n: ]] is the substring that starts at [n] and runs to the
    end. *)
Lemma slice_from_substring (n : nat) (s : string) :
  slice_from n s = String.substring n (String.length s - n) s.
Proof.
  revert s. induction n as [| n IH]; intros s.
  - simpl. rewrite Nat.sub_0_r. clear. induction s as [| c s IH]; simpl; congruence.
  - destruct s as [| c s]; simpl; [reflexivity | apply IH].
Qed.

(** ** Documentation *)

Section Documentation.

Variable W : World.

(** [_GetDoc] once the session is there. *)
Lemma get_doc_run (rd : RequestData) (s s1 : Completer) (script : Script) :
  _GetJediScript W rd s = (s1, Ret script) ->
  _GetDoc W rd s =
  (s1, let documentation :=
         join (newline +:+ "---" +:+ newline) (map docstring (goto_definitions W script)) in
       if truthy documentation then Ret (DetailedInfo documentation)
       else Raise (RuntimeError "No documentation available.")).
Proof.
  intros H. unfold _GetDoc. rewrite (bind_run _ _ _ _ _ H). cbv zeta.
  destruct (truthy _); reflexivity.
Qed.

(** [_GetDoc] raises exactly when there is no definition, or one definition
    with an empty docstring. *)
Lemma get_doc_raises_iff (rd : RequestData) (s s1 : Completer) (script : Script) :
  _GetJediScript W rd s = (s1, Ret script) ->
  snd (_GetDoc W rd s) = Raise (RuntimeError "No documentation available.")
  <-> map docstring (goto_definitions W script) = []
      \/ map docstring (goto_definitions W script) = [EmptyString].
Proof.
  intros H. rewrite (get_doc_run _ _ _ _ H). cbv zeta. cbn [snd].
  rewrite <- (join_empty (newline +:+ "---" +:+ newline)) by reflexivity.
  rewrite <- truthy_false.
  destruct (truthy _); split; congruence.
Qed.

End Documentation.

(** C4, on the code.  The sample engine finds two definitions, both with an
    empty docstring; [_GetDoc] does not raise: it returns the separator
    alone. *)
Theorem get_doc_separator_alone :
  (forall script : Script,
      Forall (fun d => docstring d = EmptyString)
        (goto_definitions Sample.undocumented script))
  /\ snd (_GetDoc Sample.undocumented Sample.request __init__)
     = Ret (DetailedInfo (newline +:+ "---" +:+ newline)).
Proof.
  split.
  - intros script. repeat constructor.
  - vm_compute. reflexivity.
Qed.

(** ** Type information *)

(** The text of [_BuildTypeInfo] is empty only for an empty description
    without [params]. *)
Lemma build_type_info_empty (d : BaseDefinition) :
  _BuildTypeInfo d = EmptyString <-> description d = EmptyString /\ params d = None.
Proof.
  unfold _BuildTypeInfo. destruct (params d) as [ps |].
  - split; [| intros [_ ?]; discriminate].
    intros H. apply append_empty in H as [_ H]. discriminate.
  - tauto.
Qed.

(** One definition with an empty description and no [params]: the set of
    definitions is not empty, and [_GetType] raises all the same. *)
Lemma get_type_blank_raises :
  (exists (s1 : Completer) (script : Script),
      _GetJediScript Sample.nameless Sample.request __init__ = (s1, Ret script)
      /\ goto_definitions Sample.nameless script = [Sample.blank])
  /\ snd (_GetType Sample.nameless Sample.request __init__)
     = Raise (RuntimeError "No type information available.").
Proof.
  split; [| vm_compute; reflexivity].
  destruct (get_jedi_script_returns Sample.nameless Sample.request __init__
              Sample.session_at_cursor) as (s1 & E & _);
    [vm_compute; reflexivity |].
  exists s1, Sample.session_at_cursor. split; [exact E | reflexivity].
Qed.

(** C5 (amended).  Let the session at the cursor return.  (1) The text of a
    definition without [params] is its description; the text of a
    definition with [params] is its description followed, in parentheses,
    by the parameters' descriptions from their seventh character on, joined
    by [", "]; so when the parameters are described as ["param " ++ text],
    by the texts themselves.
    (2) [_GetType] raises exactly when the joined text is empty: when
    there is no definition, or when there is one definition and it has an
    empty description and no [params].  (3) It otherwise returns the texts
    of the definitions joined by [", "]. *)
Theorem get_type_signatures (W : World) (rd : RequestData)
    (s s1 : Completer) (script : Script) :
  _GetJediScript W rd s = (s1, Ret script) ->
  (forall d : BaseDefinition, params d = None -> _BuildTypeInfo d = description d)
  /\ (forall (d : BaseDefinition) (ps : list Param),
       params d = Some ps ->
       _BuildTypeInfo d
       = description d +:+ "(" +:+
           join ", " (map (fun p => String.substring 6
                                      (String.length (param_description p) - 6)
                                      (param_description p)) ps) +:+ ")")
  /\ (forall (d : BaseDefinition) (texts : list string),
       params d = Some (map (fun text => mkParam ("param " +:+ text)) texts) ->
       _BuildTypeInfo d = description d +:+ "(" +:+ join ", " texts +:+ ")")
  /\ (snd (_GetType W rd s) = Raise (RuntimeError "No type information available.")
      <-> goto_definitions W script = []
          \/ exists d, goto_definitions W script = [d]
                       /\ description d = EmptyString /\ params d = None)
  /\ (snd (_GetType W rd s) <> Raise (RuntimeError "No type information available.") ->
      snd (_GetType W rd s)
      = Ret (DisplayMessage (join ", " (map _BuildTypeInfo (goto_definitions W script))))).
Proof.
  intros Hscript. split; [| split; [| split]].
  - intros d H. unfold _BuildTypeInfo. rewrite H. reflexivity.
  - intros d ps H. unfold _BuildTypeInfo. rewrite H. do 4 f_equal.
    apply map_ext. intros p. apply slice_from_substring.
  - intros d texts H. unfold _BuildTypeInfo. rewrite H, map_map. simpl.
    rewrite map_id. reflexivity.
  - unfold _GetType. rewrite (bind_run _ _ _ _ _ Hscript). cbv zeta.
    set (definitions := goto_definitions W script).
    assert (Hempty : truthy (join ", " (map _BuildTypeInfo definitions)) = false
                     <-> definitions = []
                         \/ exists d, definitions = [d]
                                      /\ description d = EmptyString /\ params d = None).
    { rewrite truthy_false, join_empty by reflexivity.
      destruct definitions as [| d [| d' l]]; simpl.
      - split; auto.
      - split.
        + intros [| [= H]]; [discriminate |]. right. exists d.
          split; [reflexivity | apply build_type_info_empty, H].
        + intros [| (d0 & [= <-] & H)]; [discriminate |]. right.
          f_equal. apply build_type_info_empty, H.
      - split; [intros [|]; discriminate | intros [| (d0 & ? & _)]; discriminate]. }
    destruct (truthy (join ", " (map _BuildTypeInfo definitions))); cbn [snd ret raise].
    + split; [split; [discriminate |] | reflexivity].
      intros H. apply Hempty in H. discriminate.
    + split; [| congruence]. split; [intros _; apply Hempty; reflexivity | reflexivity].
Qed.

(** The sample engine finds a function of two parameters and a plain
    name. *)
Lemma get_type_signatures_witness :
  snd (_GetType Sample.typed Sample.request __init__)
  = Ret (DisplayMessage "def f(a, b=1), x = 1").
Proof.
  destruct (get_jedi_script_returns Sample.typed Sample.request __init__
              Sample.session_at_cursor) as (s1 & E & _);
    [vm_compute; reflexivity |].
  destruct (get_type_signatures _ _ _ _ _ E) as (_ & _ & _ & _ & Hret).
  rewrite Hret; [reflexivity | vm_compute; discriminate].
Defined.

(** ** Environments *)

(** C6.  Given a non-empty interpreter path for which [FindExecutable],
    applied to the expanded path, finds nothing, environment resolution
    raises the error that names the path as it was given, and the state it
    leaves is the state it was called in: no dictionary has a new entry. *)
Theorem missing_interpreter_raises (W : World) (p : string) (s : Completer) :
  truthy p = true ->
  truthy_opt (FindExecutable W (ExpandVariablesInPath W p)) = false ->
  _EnvironmentForInterpreterPath W (Some p) s
  = (s, Raise (RuntimeError ("Cannot find Python interpreter path " +:+ p +:+ "."))).
Proof.
  intros Hp Hmissing.
  apply environment_for_interpreter_path_raise, resolve_interpreter_path_missing;
    assumption.
Qed.

(** The machine of the samples has no [python9]. *)
Lemma missing_interpreter_raises_witness :
  _EnvironmentForInterpreterPath Sample.quiet (Some "python9") __init__
  = (__init__, Raise (RuntimeError "Cannot find Python interpreter path python9.")).
Proof.
  apply (missing_interpreter_raises Sample.quiet "python9" __init__); reflexivity.
Defined.

(** C7.  Let two non-empty interpreter paths resolve, after expansion and
    search, to executables with the same normalised path.  Resolving the
    first always returns a handle, cached under the normalised path;
    resolving the second afterwards returns that very handle (same
    identity) and leaves the state alone, so nothing is constructed; so does
    resolving the second in any state whose cache holds the handle under the
    normalised path, and in particular after any sequence of calls to the
    completer. *)
Theorem same_executable_same_environment (W : World) (p1 p2 r1 r2 : string)
    (s : Completer) :
  truthy p1 = true -> truthy p2 = true ->
  FindExecutable W (ExpandVariablesInPath W p1) = Some r1 -> truthy r1 = true ->
  FindExecutable W (ExpandVariablesInPath W p2) = Some r2 -> truthy r2 = true ->
  normpath W r1 = normpath W r2 ->
  exists (s1 : Completer) (environment : Environment),
    _EnvironmentForInterpreterPath W (Some p1) s = (s1, Ret environment)
    /\ _environment_for_interpreter_path s1 !! Some (normpath W r1) = Some environment
    /\ _EnvironmentForInterpreterPath W (Some p2) s1 = (s1, Ret environment)
    /\ (forall s2 : Completer,
          _environment_for_interpreter_path s2 !! Some (normpath W r1) = Some environment ->
          _EnvironmentForInterpreterPath W (Some p2) s2 = (s2, Ret environment))
    /\ (forall calls : list Call,
          _EnvironmentForInterpreterPath W (Some p2) (after_all W calls s1)
          = (after_all W calls s1, Ret environment)).
Proof.
  intros Hp1 Hp2 Hr1 Ht1 Hr2 Ht2 Hnorm.
  pose proof (resolve_interpreter_path_found W p1 r1 s Hp1 Hr1 Ht1) as Hkey1.
  destruct (environment_for_interpreter_path_cached W _ _ _ Hkey1)
    as (s1 & environment & Hrun & Hcached & _).
  exists s1, environment.
  assert (Hlater : forall s2 : Completer,
             _environment_for_interpreter_path s2 !! Some (normpath W r1) = Some environment ->
             _EnvironmentForInterpreterPath W (Some p2) s2 = (s2, Ret environment)).
  { intros s2 H2.
    pose proof (resolve_interpreter_path_found W p2 r2 s2 Hp2 Hr2 Ht2) as Hkey2.
    rewrite (environment_for_interpreter_path_run W _ _ _ Hkey2), <- Hnorm, H2.
    reflexivity. }
  repeat split; auto.
  intros calls. apply Hlater.
  destruct (after_all_evolves W calls s1) as (new & _ & _ & _ & _ & Hkept & _).
  apply (lookup_weaken _ _ _ _ Hcached Hkept).
Qed.

(** [python3] and [/usr/bin/python3] name one interpreter: one handle, the
    first ever constructed. *)
Lemma same_executable_same_environment_witness :
  exists (s1 : Completer) (environment : Environment),
    _EnvironmentForInterpreterPath Sample.quiet (Some "python3") __init__
    = (s1, Ret environment)
    /\ _EnvironmentForInterpreterPath Sample.quiet (Some "/usr/bin/python3") s1
       = (s1, Ret environment)
    /\ env_id environment = 0 /\ next_env_id s1 = 1.
Proof.
  destruct (same_executable_same_environment Sample.quiet
              "python3" "/usr/bin/python3" "/usr/bin/python3" "/usr/bin/python3"
              __init__ eq_refl eq_refl eq_refl eq_refl eq_refl eq_refl eq_refl)
    as (s1 & environment & Hfirst & _ & Hsecond & _ & _).
  exists s1, environment.
  split; [exact Hfirst |]. split; [exact Hsecond |].
  vm_compute in Hfirst. injection Hfirst as <- <-. split; reflexivity.
Defined.

(** ** Detailing candidates *)

(** C9.  A candidate whose extra data is a plain dictionary is left as it
    is by a pass; after one pass every candidate is of that kind, so a second pass
    over the batch changes nothing; and in a mixed batch the candidates that
    were detailed already come out of a pass unchanged, at their place. *)
Theorem detail_candidates_idempotent (rd : RequestData) (candidates : list Candidate) :
  (forall (c : Candidate) (location : option Location),
      extra_data c = PlainDict location -> detail c = c)
  /\ DetailCandidates rd (DetailCandidates rd candidates) = DetailCandidates rd candidates
  /\ (forall (i : nat) (c : Candidate) (location : option Location),
        candidates !! i = Some c ->
        extra_data c = PlainDict location ->
        DetailCandidates rd candidates !! i = Some c)
  /\ Forall (fun c => exists location, extra_data c = PlainDict location)
       (DetailCandidates rd candidates).
Proof.
  assert (Hskip : forall (c : Candidate) (location : option Location),
             extra_data c = PlainDict location -> detail c = c)
    by (intros c location H; unfold detail; rewrite H; reflexivity).
  assert (Hplain : forall c, exists location, extra_data (detail c) = PlainDict location).
  { intros c. unfold detail.
    destruct (extra_data c) as [completion | location] eqn:E.
    - simpl. unfold _GetExtraData.
      destruct (module_path completion), (line completion), (column completion);
        try (eexists; reflexivity).
      destruct (_ && _); eexists; reflexivity.
    - exists location. exact E. }
  split; [exact Hskip |]. split; [| split].
  - unfold DetailCandidates. rewrite map_map. apply map_ext.
    intros c. destruct (Hplain c) as [location H]. apply (Hskip _ _ H).
  - intros i c location Hi Hc. unfold DetailCandidates.
    rewrite list_lookup_fmap, Hi. simpl. f_equal. apply (Hskip _ _ Hc).
  - unfold DetailCandidates. apply List.Forall_forall. intros c Hc.
    apply in_map_iff in Hc as (c0 & <- & _). apply Hplain.
Qed.

(** The sample batch: the detailed candidate keeps its place and its
    fields, and a second pass changes nothing. *)
Lemma detail_candidates_idempotent_witness :
  DetailCandidates Sample.request Sample.batch !! 0 = Some Sample.detailed_candidate
  /\ DetailCandidates Sample.request (DetailCandidates Sample.request Sample.batch)
     = DetailCandidates Sample.request Sample.batch.
Proof.
  destruct (detail_candidates_idempotent Sample.request Sample.batch)
    as (_ & Htwice & Hkept & _).
  split; [| exact Htwice].
  apply (Hkept 0 Sample.detailed_candidate (Some (mkLocation "main.py" 3 5)));
    reflexivity.
Defined.

(** ** Cached values are computed once *)

Section Once.

Variable W : World.







End Once.


(** ** States that calls can reach *)

(** X1.  Whatever calls a completer has served since [__init__], every
    environment in its cache was numbered when it was constructed, and no
    two interpreter keys share a handle: equal identities are one cache
    entry. *)
Theorem handles_have_their_own_identity (W : World) (calls : list Call) :
  identities_distinct (after_all W calls __init__).
Proof. apply after_all_identities, init_identities. Qed.

(** X2.  Whatever calls a completer has served since [__init__], its log
    holds one note for every entry of its four dictionaries and no other:
    the settings, the environment and the search path of a request key, and
    the environment object of an interpreter key, were each computed once
    if they are cached and never if they are not. *)
Theorem log_notes_each_entry_once (W : World) (calls : list Call) (e : Event) :
  occurrences e (effects (after_all W calls __init__))
  = if holds (after_all W calls __init__) e then 1 else 0.
Proof.
  destruct (after_all_evolves W calls __init__) as (new & Hnew & Hcount & _).
  simpl in Hnew. rewrite Hnew, Hcount.
  assert (H0 : holds __init__ e = false)
    by (destruct e; simpl; rewrite lookup_empty; apply bool_decide_eq_false_2;
        intros [? ?]; discriminate).
  rewrite H0. reflexivity.
Qed.

(** * More properties of the completer *)

(** ** Interpreter paths that say nothing *)

Section FalsyPaths.

Variable W : World.

(** X3.  An interpreter path that is [None] or empty never raises: it is
    answered with the default environment, cached under the path as it was
    given.  On a miss that environment is a new object, the next in number;
    on a hit it is the cached one and the state is unchanged. *)
Theorem falsy_interpreter_path_default_environment (path : option string) (s : Completer) :
  truthy_opt path = false ->
  exists (s1 : Completer) (environment : Environment),
    _EnvironmentForInterpreterPath W path s = (s1, Ret environment)
    /\ _environment_for_interpreter_path s1 !! path = Some environment
    /\ (_environment_for_interpreter_path s !! path = None ->
        environment = mkEnv (next_env_id s) (get_default_environment W)
        /\ next_env_id s1 = S (next_env_id s))
    /\ (forall cached, _environment_for_interpreter_path s !! path = Some cached ->
        environment = cached /\ s1 = s).
Proof.
  intros Hfalsy.
  assert (Hkey : resolve_interpreter_path W path s = (s, Ret path)).
  { unfold resolve_interpreter_path. destruct path as [p |]; [| reflexivity].
    simpl in Hfalsy. rewrite Hfalsy. reflexivity. }
  assert (Hinfo : jedi_environment W path = get_default_environment W).
  { unfold jedi_environment. destruct path as [p |]; [| reflexivity].
    simpl in Hfalsy. rewrite Hfalsy. reflexivity. }
  rewrite (environment_for_interpreter_path_run W _ _ _ Hkey).
  destruct (_environment_for_interpreter_path s !! path) as [cached |] eqn:E.
  - exists s, cached. split; [reflexivity |]. split; [exact E |].
    split; [discriminate |]. intros c [= <-]. split; reflexivity.
  - eexists _, _. split; [reflexivity |]. simpl. rewrite lookup_insert_eq.
    rewrite Hinfo. split; [reflexivity |]. split; [| discriminate].
    intros _. split; reflexivity.
Qed.

(** X4.  [None] and the empty string are two keys of the cache: in a state
    that holds neither, resolving the one and then the other constructs two
    default environments, two objects with consecutive numbers, and caches
    each under its own key. *)
Theorem none_and_empty_path_are_two_keys (s : Completer) :
  _environment_for_interpreter_path s !! None = None ->
  _environment_for_interpreter_path s !! Some EmptyString = None ->
  exists (s1 s2 : Completer),
    _EnvironmentForInterpreterPath W None s
    = (s1, Ret (mkEnv (next_env_id s) (get_default_environment W)))
    /\ _EnvironmentForInterpreterPath W (Some EmptyString) s1
       = (s2, Ret (mkEnv (S (next_env_id s)) (get_default_environment W)))
    /\ _environment_for_interpreter_path s2 !! None
       = Some (mkEnv (next_env_id s) (get_default_environment W))
    /\ _environment_for_interpreter_path s2 !! Some EmptyString
       = Some (mkEnv (S (next_env_id s)) (get_default_environment W)).
Proof.
  intros Hnone Hempty.
  rewrite (environment_for_interpreter_path_run W None None s eq_refl), Hnone.
  eexists _, _. split; [reflexivity |].
  rewrite (environment_for_interpreter_path_run W (Some EmptyString) (Some EmptyString)
             _ eq_refl).
  simpl. rewrite lookup_insert_ne by discriminate. rewrite Hempty.
  split; [reflexivity |]. simpl.
  rewrite lookup_insert_ne by discriminate. rewrite !lookup_insert_eq.
  split; reflexivity.
Qed.

End FalsyPaths.

Lemma falsy_interpreter_path_default_environment_witness :
  exists (s1 : Completer),
    _EnvironmentForInterpreterPath Sample.quiet None __init__
    = (s1, Ret (mkEnv 0 Sample.python3)).
Proof.
  destruct (falsy_interpreter_path_default_environment Sample.quiet None __init__ eq_refl)
    as (s1 & environment & Hrun & _ & Hmiss & _).
  destruct (Hmiss eq_refl) as [-> _]. exists s1. exact Hrun.
Defined.

Lemma none_and_empty_path_are_two_keys_witness :
  exists (s1 s2 : Completer),
    _EnvironmentForInterpreterPath Sample.quiet None __init__
    = (s1, Ret (mkEnv 0 Sample.python3))
    /\ _EnvironmentForInterpreterPath Sample.quiet (Some EmptyString) s1
       = (s2, Ret (mkEnv 1 Sample.python3)).
Proof.
  destruct (none_and_empty_path_are_two_keys Sample.quiet __init__ eq_refl eq_refl)
    as (s1 & s2 & H1 & H2 & _).
  exists s1, s2. split; [exact H1 | exact H2].
Defined.

(** ** An interpreter that cannot be found, seen from the calls *)

Section MissingInterpreter.

Variable W : World.

(** A request whose settings name an interpreter that cannot be found:
    [_EnvironmentForRequest] raises in the state that [_SettingsForRequest]
    leaves. *)
Lemma environment_for_request_missing (rd : RequestData) (s : Completer)
    (settings : Settings) (p : string) :
  _environment_for_file s !! cache_key rd = None ->
  snd (_SettingsForRequest W rd s) = Ret settings ->
  interpreter_path settings = Some p ->
  truthy p = true ->
  truthy_opt (FindExecutable W (ExpandVariablesInPath W p)) = false ->
  _EnvironmentForRequest W rd s
  = (fst (_SettingsForRequest W rd s),
     Raise (RuntimeError ("Cannot find Python interpreter path " +:+ p +:+ "."))).
Proof.
  intros Hmiss Hsettings Hpath Hp Hfind.
  unfold _EnvironmentForRequest, bind at 1, get. simpl. fold (cache_key rd).
  rewrite Hmiss.
  destruct (_SettingsForRequest W rd s) as [s1 o] eqn:E. simpl in Hsettings. subst o.
  rewrite (bind_run _ _ _ _ _ E). rewrite Hpath.
  apply bind_raise, environment_for_interpreter_path_raise,
    resolve_interpreter_path_missing; assumption.
Qed.

(** A call whose environment resolution raises ends there. *)
Lemma call_raises_with_environment (call : Call) (s s1 : Completer) (e : exn) :
  _EnvironmentForRequest W (request_of call) s = (s1, Raise e) ->
  after W call s = s1 /\ exception_of W call s = Some e.
Proof.
  intros H.
  assert (Hscript : _GetJediScript W (request_of call) s = (s1, Raise e))
    by (apply bind_raise, H).
  destruct call as [rd | rd | fuel rd | rd | rd | rd | rd]; simpl in *;
    unfold OnFileReadyToParse, ComputeCandidatesInner, _GoToDefinition, _GoToType,
      _GoToReferences, _GetType, _GetDoc;
    first [rewrite (bind_raise _ _ _ _ _ Hscript) | rewrite (bind_raise _ _ _ _ _ H)];
    split; reflexivity.
Qed.

(** X5.  Let a call be made for a request that has no cached environment
    and whose settings name a non-empty interpreter path for which no
    executable is found.  The call, whichever it is, raises the error that
    names the path.  It leaves the settings cached, and the two environment
    dictionaries and the search-path dictionary as they were.  The failure
    is not cached: the same call made again raises the same error and
    leaves the state as the first call left it. *)
Theorem missing_interpreter_fails_every_call (call : Call) (s : Completer)
    (settings : Settings) (p : string) :
  _environment_for_file s !! cache_key (request_of call) = None ->
  snd (_SettingsForRequest W (request_of call) s) = Ret settings ->
  interpreter_path settings = Some p ->
  truthy p = true ->
  truthy_opt (FindExecutable W (ExpandVariablesInPath W p)) = false ->
  exception_of W call s
  = Some (RuntimeError ("Cannot find Python interpreter path " +:+ p +:+ "."))
  /\ after W call s = fst (_SettingsForRequest W (request_of call) s)
  /\ _settings_for_file (after W call s) !! cache_key (request_of call) = Some settings
  /\ _environment_for_file (after W call s) = _environment_for_file s
  /\ _environment_for_interpreter_path (after W call s)
     = _environment_for_interpreter_path s
  /\ _sys_path_for_file (after W call s) = _sys_path_for_file s
  /\ exception_of W call (after W call s)
     = Some (RuntimeError ("Cannot find Python interpreter path " +:+ p +:+ "."))
  /\ after W call (after W call s) = after W call s.
Proof.
  intros Hmiss Hsettings Hpath Hp Hfind.
  pose proof (environment_for_request_missing _ _ _ _ Hmiss Hsettings Hpath Hp Hfind)
    as Hraise.
  destruct (call_raises_with_environment _ _ _ _ Hraise) as [Hafter Hexn].
  destruct (settings_for_request_total W (request_of call) s)
    as (s1 & settings' & Hrun & Hcached & Hef & Hei & Hsp & _).
  rewrite Hrun in *. cbn [fst snd] in *. injection Hsettings as ->.
  rewrite Hafter.
  assert (Hagain : _EnvironmentForRequest W (request_of call) s1
                   = (s1, Raise (RuntimeError
                                   ("Cannot find Python interpreter path " +:+ p +:+ ".")))).
  { pose proof (settings_for_request_hit W _ _ _ Hcached) as Hhit.
    rewrite (environment_for_request_missing (request_of call) s1 settings p);
      rewrite ?Hhit; try assumption; try reflexivity.
    rewrite Hef. exact Hmiss. }
  destruct (call_raises_with_environment _ _ _ _ Hagain) as [Hafter' Hexn'].
  repeat split; assumption.
Qed.

End MissingInterpreter.

Lemma missing_interpreter_fails_every_call_witness :
  exception_of Sample.misconfigured (GoToType Sample.request) __init__
  = Some (RuntimeError "Cannot find Python interpreter path python9.")
  /\ exception_of Sample.misconfigured (GoToType Sample.request)
       (after Sample.misconfigured (GoToType Sample.request) __init__)
     = Some (RuntimeError "Cannot find Python interpreter path python9.").
Proof.
  destruct (missing_interpreter_fails_every_call Sample.misconfigured
              (GoToType Sample.request) __init__
              (mkSettings (Some "python9") None) "python9")
    as (Hfirst & _ & _ & _ & _ & _ & Hagain & _);
    [reflexivity | vm_compute; reflexivity | reflexivity | reflexivity | reflexivity |].
  split; [exact Hfirst | exact Hagain].
Defined.

(** ** The search path of a request *)

Section SearchPath.

Variable W : World.

(** X6.  On a miss of the search-path dictionary, the search path of a
    request is the answer of the extra-conf module's [PythonSysPath] hook
    when there is one, called with the environment's executable as
    interpreter path and with the settings' search path followed by the
    environment's; without a hook it is that concatenation itself.  It is
    cached for the request.  When the settings carry a search path, the
    settings cached for the request have had theirs extended by the
    environment's: the list was extended in place. *)
Theorem search_path_on_miss (rd : RequestData) (environment : Environment)
    (s : Completer) (settings : Settings) :
  _sys_path_for_file s !! cache_key rd = None ->
  snd (_SettingsForRequest W rd s) = Ret settings ->
  exists s1 : Completer,
    _SysPathForFile W rd environment s
    = (s1,
       Ret (match ModuleForSourceFile W (filepath rd) ≫= PythonSysPathHook with
            | Some hook =>
                hook (mkSettings (Some (executable environment))
                        (Some (default [] (sys_path settings) ++ get_sys_path environment)))
            | None => default [] (sys_path settings) ++ get_sys_path environment
            end))
    /\ _sys_path_for_file s1 !! cache_key rd
       = Some (match ModuleForSourceFile W (filepath rd) ≫= PythonSysPathHook with
               | Some hook =>
                   hook (mkSettings (Some (executable environment))
                           (Some (default [] (sys_path settings)
                                    ++ get_sys_path environment)))
               | None => default [] (sys_path settings) ++ get_sys_path environment
               end)
    /\ _settings_for_file s1 !! cache_key rd
       = Some (match sys_path settings with
               | Some l => mkSettings (interpreter_path settings)
                             (Some (l ++ get_sys_path environment))
               | None => settings
               end).
Proof.
  intros Hmiss Hsettings.
  unfold _SysPathForFile, bind at 1, get. simpl. fold (cache_key rd). rewrite Hmiss.
  unfold _GetSysPath.
  destruct (settings_for_request_total W rd s)
    as (s1 & settings' & Hrun & Hcached & _ & _ & Hsp & _).
  rewrite Hrun in Hsettings. simpl in Hsettings. injection Hsettings as ->.
  unfold bind at 1. unfold bind at 1. rewrite Hrun.
  destruct (sys_path settings) as [l |] eqn:El; simpl;
    destruct (ModuleForSourceFile W (filepath rd)) as [m |]; simpl;
    try destruct (PythonSysPathHook m) as [hook |]; simpl;
    unfold bind, modify, ret; simpl;
    eexists; (split; [reflexivity |]); simpl;
    rewrite ?lookup_insert_eq; split; try reflexivity; try exact Hcached.
Qed.

Lemma settings_without_module (rd : RequestData) (s : Completer) :
  ModuleForSourceFile W (filepath rd) = None ->
  _settings_for_file s !! cache_key rd = None
  \/ _settings_for_file s !! cache_key rd = Some (default_settings W) ->
  exists s1,
    _SettingsForRequest W rd s = (s1, Ret (default_settings W))
    /\ _settings_for_file s1 !! cache_key rd = Some (default_settings W)
    /\ _sys_path_for_file s1 = _sys_path_for_file s.
Proof.
  intros Hmodule Hst. rewrite settings_for_request_run, Hmodule.
  destruct Hst as [H | H]; rewrite H.
  - eexists. split; [reflexivity |]. simpl. rewrite lookup_insert_eq. split; reflexivity.
  - exists s. repeat split. exact H.
Qed.

(** X7.  Where a file has no extra-conf module, a request that had neither
    settings nor search path cached gets the configured binary path as its
    only setting, and its search path is exactly the search path of its
    environment. *)
Theorem without_extra_conf (rd : RequestData) (s s1 : Completer) (script : Script) :
  ModuleForSourceFile W (filepath rd) = None ->
  _settings_for_file s !! cache_key rd = None ->
  _sys_path_for_file s !! cache_key rd = None ->
  _GetJediScript W rd s = (s1, Ret script) ->
  script_sys_path script = get_sys_path (script_environment script)
  /\ _settings_for_file s1 !! cache_key rd
     = Some (mkSettings (Some (python_binary_path W)) None)
  /\ _sys_path_for_file s1 !! cache_key rd
     = Some (get_sys_path (script_environment script)).
Proof.
  intros Hmodule Hst Hsp Hrun.
  unfold _GetJediScript in Hrun.
  apply bind_inv in Hrun as (sa & environment & Henv & Hrest).
  apply bind_inv in Hrest as (sb & sp & Hsys & Hfin).
  injection Hfin as <- <-. simpl.
  pose proof (environment_for_request_returns W _ _ _ _ Henv) as [_ Hspa].
  assert (Hsa : _settings_for_file sa !! cache_key rd = None
                \/ _settings_for_file sa !! cache_key rd = Some (default_settings W)).
  { revert Henv. unfold _EnvironmentForRequest, bind at 1, get. simpl.
    fold (cache_key rd).
    destruct (_environment_for_file s !! cache_key rd) as [cached |].
    - intros [= <- _]. left. exact Hst.
    - destruct (settings_without_module rd s Hmodule (or_introl Hst))
        as (s2 & Hrun2 & Hcached2 & _).
      rewrite (bind_run _ _ _ _ _ Hrun2).
      destruct (environment_for_interpreter_path_frame W
                  (interpreter_path (default_settings W)) s2) as (Hframe & _).
      unfold bind at 1.
      destruct (_EnvironmentForInterpreterPath W (interpreter_path (default_settings W)) s2)
        as [s3 [env | e |]]; try discriminate.
      unfold bind, modify, ret. simpl. intros [= <- _]. simpl. right.
      simpl in Hframe. rewrite Hframe. exact Hcached2. }
  destruct (settings_without_module rd sa Hmodule Hsa) as (s2 & Hrun2 & Hcached2 & Hsp2).
  revert Hsys. unfold _SysPathForFile, bind at 1, get. simpl. fold (cache_key rd).
  rewrite Hspa, Hsp. unfold _GetSysPath.
  unfold bind at 1. unfold bind at 1. rewrite Hrun2, Hmodule.
  unfold bind, modify, ret. simpl.
  intros [= <- <-]. simpl. rewrite lookup_insert_eq. repeat split. exact Hcached2.
Qed.

End SearchPath.

Lemma search_path_on_miss_witness :
  snd (_SysPathForFile Sample.configured Sample.request
         (mkEnv 0 Sample.python3) __init__)
  = Ret ["/srv/lib"; "/usr/lib/python3"]
  /\ _settings_for_file
       (fst (_SysPathForFile Sample.configured Sample.request
               (mkEnv 0 Sample.python3) __init__))
     !! cache_key Sample.request
     = Some (mkSettings (Some "python3") (Some ["/srv/lib"; "/usr/lib/python3"])).
Proof.
  destruct (search_path_on_miss Sample.configured Sample.request
              (mkEnv 0 Sample.python3) __init__
              (mkSettings (Some "python3") (Some ["/srv/lib"])))
    as (s1 & Hrun & _ & Hsettings); [reflexivity | vm_compute; reflexivity |].
  rewrite Hrun. split; [reflexivity | exact Hsettings].
Defined.

Lemma without_extra_conf_witness :
  exists s1 : Completer,
    _GetJediScript Sample.quiet Sample.request __init__
    = (s1, Ret Sample.session_at_cursor)
    /\ _sys_path_for_file s1 !! cache_key Sample.request = Some ["/usr/lib/python3"].
Proof.
  destruct (get_jedi_script_returns Sample.quiet Sample.request __init__
              Sample.session_at_cursor) as (s1 & E & _);
    [vm_compute; reflexivity |].
  exists s1. split; [exact E |].
  apply (without_extra_conf Sample.quiet Sample.request __init__ s1
           Sample.session_at_cursor); [reflexivity | reflexivity | reflexivity | exact E].
Defined.

(** ** Candidates *)

(** X8.  When the session at the cursor returns, [ComputeCandidatesInner]
    returns one candidate per completion of the engine, in the engine's
    order, each with the completion's name as insertion text and the
    completion itself as extra data (none is an error, not even an empty
    list); detailing those candidates gives, for each completion, its name,
    its type information, its docstring, its type and its location. *)
Theorem candidates_then_details (W : World) (rd : RequestData) (s s1 : Completer)
    (script : Script) :
  _GetJediScript W rd s = (s1, Ret script) ->
  exists candidates : list Candidate,
    ComputeCandidatesInner W rd s = (s1, Ret candidates)
    /\ map insertion_text candidates = map name (completions W script)
    /\ map extra_data candidates = map JediObject (completions W script)
    /\ DetailCandidates rd candidates
       = map (fun completion =>
                mkCandidate (name completion)
                  (Some (_BuildTypeInfo completion))
                  (Some (docstring completion))
                  (Some (def_type completion))
                  (_GetExtraData completion))
           (completions W script).
Proof.
  intros H. unfold ComputeCandidatesInner. rewrite (bind_run _ _ _ _ _ H).
  eexists. split; [reflexivity |].
  unfold DetailCandidates. rewrite !map_map. repeat split.
Qed.

Lemma candidates_then_details_witness :
  exists candidates : list Candidate,
    snd (ComputeCandidatesInner Sample.completing Sample.request __init__)
    = Ret candidates
    /\ map insertion_text candidates = ["f"; "x"]
    /\ DetailCandidates Sample.request candidates
       = [mkCandidate "f" (Some "def f(a, b=1)") (Some "Adds.") (Some "function")
            (PlainDict (Some (mkLocation "main.py" 3 5)));
          mkCandidate "x" (Some "x = 1") (Some EmptyString) (Some "statement")
            (PlainDict None)].
Proof.
  destruct (get_jedi_script_returns Sample.completing Sample.request __init__
              Sample.session_at_cursor) as (s1 & E & _);
    [vm_compute; reflexivity |].
  destruct (candidates_then_details _ _ _ _ _ E) as (candidates & Hrun & Htext & _ & Hdetail).
  exists candidates. rewrite Hrun. split; [reflexivity |].
  split; [exact Htext | exact Hdetail].
Defined.

(** X9.  A detailing pass returns as many candidates as it was given, with
    the same insertion texts in the same order.  A candidate that held a
    completion comes out with a location exactly when the completion has a
    non-empty module path, a line that is neither [None] nor 0 and a column
    that is neither [None] nor 0; the location is then that path and line,
    and the column plus one. *)
Theorem detail_keeps_text_and_locates (rd : RequestData) (candidates : list Candidate) :
  length (DetailCandidates rd candidates) = length candidates
  /\ map insertion_text (DetailCandidates rd candidates) = map insertion_text candidates
  /\ (forall (c : Candidate) (completion : BaseDefinition) (location : Location),
        extra_data c = JediObject completion ->
        extra_data (detail c) = PlainDict (Some location)
        <-> (module_path completion = Some (loc_filepath location)
             /\ loc_filepath location <> EmptyString
             /\ line completion = Some (loc_line_num location)
             /\ loc_line_num location <> 0%Z
             /\ exists column_num : Z,
                  column completion = Some column_num /\ column_num <> 0%Z
                  /\ loc_column_num location = (column_num + 1)%Z)).
Proof.
  split; [apply length_map |]. split.
  - unfold DetailCandidates. rewrite map_map. apply map_ext.
    intros c. unfold detail. destruct (extra_data c); reflexivity.
  - intros c completion [path l col] Hc. unfold detail. rewrite Hc. simpl.
    unfold _GetExtraData.
    destruct (module_path completion) as [p |];
      [| split; [discriminate | intros (H & _); discriminate]].
    destruct (line completion) as [line_num |];
      [| split; [discriminate | intros (_ & _ & H & _); discriminate]].
    destruct (column completion) as [column_num |];
      [| split; [discriminate | intros (_ & _ & _ & _ & k & H & _); discriminate]].
    destruct (truthy p) eqn:Hp; simpl.
    + destruct (Z.eqb_spec line_num 0) as [Hl | Hl]; simpl.
      { split; [discriminate |]. intros (_ & _ & [= <-] & H & _). contradiction. }
      destruct (Z.eqb_spec column_num 0) as [Hk | Hk]; simpl.
      { split; [discriminate |]. intros (_ & _ & _ & _ & k & [= <-] & H & _).
        contradiction. }
      split.
      * intros [= <- <- <-]. repeat split; auto.
        { intros ->. discriminate. }
        exists column_num. repeat split; auto.
      * intros ([= ->] & _ & [= ->] & _ & k & [= <-] & _ & ->). reflexivity.
    + split; [discriminate |]. intros ([= ->] & H & _).
      destruct path; [contradiction | discriminate].
Qed.

(** ** Go-to responses *)

(** X10.  [_BuildGoToResponse] raises exactly when one of the definitions
    has no column, and what it raises is the [TypeError] of
    [definition.column + 1].  When it returns, the response lists the
    definitions in their order, each at its module path and line and at its
    column plus one; it is a single location exactly when there is one
    definition; the single location carries no description, and the
    locations of a list carry each the description of its definition. *)
Theorem go_to_response_shape (definitions : list BaseDefinition) :
  ((exists e, _BuildGoToResponse definitions = Error e)
   <-> exists d, In d definitions /\ column d = None)
  /\ (forall e, _BuildGoToResponse definitions = Error e -> e = TypeError)
  /\ (forall r : Response,
        _BuildGoToResponse definitions = Ok r ->
        Forall2 (fun d g => goto_filepath g = module_path d
                            /\ goto_line_num g = line d
                            /\ column d = Some (goto_column_num g - 1)%Z
                            /\ goto_description g
                               = match definitions with
                                 | [_] => None
                                 | _ => Some (description d)
                                 end)
          definitions (locations r)
        /\ ((exists g, r = GoToOne g) <-> length definitions = 1)).
Proof.
  split; [| split; [apply build_go_to_response_error | apply build_go_to_response_ok]].
  unfold _BuildGoToResponse.
  assert (Hmany : forall l : list BaseDefinition,
             (exists e, match append_gotos l [] with
                        | Ok gotos => Ok (GoToMany gotos)
                        | Error e0 => Error e0
                        end = Error e)
             <-> exists d, In d l /\ column d = None).
  { intros l. rewrite <- (append_gotos_error_iff l []).
    destruct (append_gotos l []) as [gotos | e0].
    - split; intros [e H]; discriminate.
    - split; intros _; eexists; reflexivity. }
  destruct definitions as [| d [| d' rest]]; try apply Hmany.
  unfold plus_one. destruct (column d) as [c |] eqn:Hc.
  - split; [intros [e H]; discriminate |].
    intros (d0 & [<- | []] & H). congruence.
  - split; [| intros _; eexists; reflexivity].
    intros _. exists d. split; [left; reflexivity | exact Hc].
Qed.

(** ** More on the chase *)

(** A property that every re-resolution step keeps holds of what the loop
    returns. *)
Lemma rounds_keep (next : BaseDefinition -> list BaseDefinition)
    (P : BaseDefinition -> Prop) :
  (forall d d', P d -> In d' (next d) -> P d') ->
  forall (fuel : nat) (definitions result : list BaseDefinition) (keep : bool),
    List.Forall P definitions ->
    rounds next fuel definitions keep = Some result ->
    List.Forall P result.
Proof.
  intros Hstep. induction fuel as [| fuel IH]; intros definitions result keep HP; simpl.
  - destruct keep; [discriminate |]. intros [= <-]. exact HP.
  - destruct keep; [| intros [= <-]; exact HP].
    rewrite sweep_spec. simpl. apply IH.
    apply List.Forall_forall. intros d' Hd'.
    apply in_flat_map in Hd' as (d & Hd & Hin).
    rewrite List.Forall_forall in HP.
    unfold advance in Hin. destruct (next d) as [| x l] eqn:E.
    + destruct Hin as [<- | []]. apply HP, Hd.
    + apply (Hstep d); [apply HP, Hd | rewrite E; exact Hin].
Qed.

Section MoreChase.

Variable W : World.

(** X11.  A definition without module path (a builtin) is never
    re-resolved: its same-name re-resolution is empty in every state, and
    no session is opened for it, so the state is unchanged.  When
    goto-assignments at the cursor finds only such definitions, the loop
    of [_GoToDefinition] keeps them as they are, in one round, and
    [_GoToDefinition] ends as [_BuildGoToResponse] does on them: with
    their locations, or with a [TypeError] when one of them has no
    column. *)
Theorem builtin_definitions_are_terminal (rd : RequestData) :
  (forall (d : BaseDefinition) (s : Completer),
      truthy_opt (module_path d) = false ->
      _GoToDefinitionsWithSameName W rd d s = (s, Ret []))
  /\ (forall (s s1 : Completer) (script : Script) (fuel : nat),
        _GetJediScript W rd s = (s1, Ret script) ->
        List.Forall (fun d => truthy_opt (module_path d) = false)
          (goto_assignments W script) ->
        goto_assignments W script <> [] ->
        1 <= fuel ->
        _GoToDefinition W fuel rd s
        = (s1, answer (_BuildGoToResponse (goto_assignments W script)))).
Proof.
  split.
  - intros d s H. unfold _GoToDefinitionsWithSameName. rewrite H. reflexivity.
  - intros s s1 script fuel Hscript Hall Hne Hfuel.
    rewrite (goto_definition_run W fuel _ _ _ _ Hscript).
    rewrite (rounds_fuel_le _ 1 fuel (goto_assignments W script)
               (goto_assignments W script) true Hfuel).
    + destruct (goto_assignments W script); [contradiction | reflexivity].
    + apply rounds_settled. eapply List.Forall_impl; [| exact Hall].
      intros d Hd. unfold terminal, same_name. rewrite Hd. reflexivity.
Qed.

(** X12.  When the chase returns, every definition it returns has the name
    of one of the definitions it started from; each of them re-resolves to
    nothing; chasing again from what it returned gives the same set back in
    one round; and what it returns is empty exactly when what it started
    from was. *)
Theorem chase_result (rd : RequestData) (s s1 : Completer) (script : Script)
    (fuel : nat) (definitions : list BaseDefinition) :
  _GetJediScript W rd s = (s1, Ret script) ->
  snd (chase W fuel rd (goto_assignments W script) true s1) = Ret definitions ->
  List.Forall (fun d => exists d0, In d0 (goto_assignments W script) /\ name d = name d0)
    definitions
  /\ List.Forall (fun d => snd (_GoToDefinitionsWithSameName W rd d s1) = Ret [])
       definitions
  /\ chase W 1 rd definitions true s1 = (s1, Ret definitions)
  /\ (definitions = [] <-> goto_assignments W script = []).
Proof.
  intros Hscript Hchase.
  destruct (get_jedi_script_warm W _ _ _ _ Hscript) as [Hwarm _].
  rewrite (chase_hit W _ _ _ _ Hwarm) in Hchase. cbn [snd] in Hchase.
  destruct (rounds _ fuel (goto_assignments W script) true) as [result |] eqn:E;
    [| discriminate].
  injection Hchase as ->.
  pose proof (rounds_terminal _ _ _ _ E) as Hterminal.
  split; [| split; [| split]].
  - eapply rounds_keep; [| | exact E].
    + intros d d' (d0 & Hd0 & Hname) Hin. exists d0. split; [exact Hd0 |].
      apply same_name_moves in Hin as [-> _]. exact Hname.
    + apply List.Forall_forall. intros d Hd. exists d. auto.
  - eapply List.Forall_impl; [| exact Hterminal].
    intros d Hd. rewrite (same_name_hit W _ _ _ _ Hwarm). cbn [snd]. f_equal.
    unfold terminal in Hd. destruct (same_name _ _ _ _ d); [reflexivity | discriminate].
  - rewrite (chase_hit W _ _ _ _ Hwarm), (rounds_settled _ 0 _ Hterminal). reflexivity.
  - apply (rounds_nil _ _ _ _ _ E).
Qed.

End MoreChase.

(** The builtin [len] has no column: go-to-definition on it ends with the
    [TypeError]. *)
Lemma builtin_definitions_are_terminal_witness :
  snd (_GoToDefinition Sample.builtin 1 Sample.request __init__) = Raise TypeError.
Proof.
  destruct (get_jedi_script_returns Sample.builtin Sample.request __init__
              Sample.session_at_cursor) as (s1 & E & _);
    [vm_compute; reflexivity |].
  destruct (builtin_definitions_are_terminal Sample.builtin Sample.request) as [_ H].
  rewrite (H __init__ s1 Sample.session_at_cursor 1 E);
    [reflexivity | repeat constructor | discriminate | lia].
Defined.

Lemma chase_result_witness :
  chase Sample.chain 1 Sample.request [Sample.c_] true
    (fst (_GetJediScript Sample.chain Sample.request __init__))
  = (fst (_GetJediScript Sample.chain Sample.request __init__), Ret [Sample.c_]).
Proof.
  destruct (get_jedi_script_returns Sample.chain Sample.request __init__
              Sample.session_at_cursor) as (s1 & E & Hwarm);
    [vm_compute; reflexivity |].
  rewrite E. cbn [fst].
  apply (chase_result Sample.chain Sample.request __init__ s1
           Sample.session_at_cursor 3 [Sample.c_] E).
  rewrite (chase_hit _ _ _ _ _ Hwarm). vm_compute. reflexivity.
Defined.

(** ** Documentation, as the code joins it *)

Section MoreCalls.

Variable W : World.

(** X14.  When the session at the cursor returns, [_GetDoc] raises exactly
    when goto-definitions finds no definition, or one definition with an
    empty docstring.  It otherwise returns the docstrings of all the
    definitions, empty ones included, in order and with a line of three
    dashes between them; for one definition that is its docstring.  The
    state is the one the session left. *)
Theorem get_doc_joins_docstrings (rd : RequestData) (s s1 : Completer) (script : Script) :
  _GetJediScript W rd s = (s1, Ret script) ->
  (snd (_GetDoc W rd s) = Raise (RuntimeError "No documentation available.")
   <-> goto_definitions W script = []
       \/ exists d, goto_definitions W script = [d] /\ docstring d = EmptyString)
  /\ (snd (_GetDoc W rd s) <> Raise (RuntimeError "No documentation available.") ->
      snd (_GetDoc W rd s)
      = Ret (DetailedInfo (join (newline +:+ "---" +:+ newline)
                             (map docstring (goto_definitions W script)))))
  /\ (forall d, goto_definitions W script = [d] -> docstring d <> EmptyString ->
      snd (_GetDoc W rd s) = Ret (DetailedInfo (docstring d)))
  /\ fst (_GetDoc W rd s) = s1.
Proof.
  intros Hscript.
  pose proof (get_doc_raises_iff W _ _ _ _ Hscript) as Hiff.
  pose proof (get_doc_run W _ _ _ _ Hscript) as Hrun. cbv zeta in Hrun.
  split; [| split; [| split]].
  - rewrite Hiff. destruct (goto_definitions W script) as [| d [| d' l]]; simpl.
    + split; auto.
    + split.
      * intros [| [= H]]; [discriminate |]. right. exists d. auto.
      * intros [| (d0 & [= <-] & ->)]; [discriminate |]. right. reflexivity.
    + split; [intros [|]; discriminate | intros [| (d0 & ? & _)]; discriminate].
  - rewrite Hrun. cbn [snd]. destruct (truthy _); [reflexivity | congruence].
  - intros d Hd Hdoc. rewrite Hrun, Hd. cbn [snd map join].
    destruct (docstring d); [contradiction | reflexivity].
  - rewrite Hrun. reflexivity.
Qed.

(** ** What a call leaves alone *)
Lemma after_request_step (call : Call) (s : Completer) :
  request_step (cache_key (request_of call)) s (after W call s).
Proof.
  destruct call as [rd | rd | fuel rd | rd | rd | rd | rd]; simpl.
  - apply call_step_ready.
  - apply call_step_candidates.
  - apply call_step_definition.
  - apply call_step_type.
  - apply call_step_references.
  - apply call_step_get_type.
  - apply call_step_get_doc.
Qed.

(** X15.  A call adds an entry to the caches under no request key but its
    own, and removes none.  For every other key the cached environment is
    what it was, and the key has settings, and a search path, after the
    call exactly when it had them before.  No cached environment, of a
    request or of an interpreter, is removed or replaced, and a key that
    has settings or a search path keeps having them.  (Nothing is said of
    what the settings and search-path lists of the other keys hold.) *)
Theorem calls_keep_other_entries (call : Call) (s : Completer) :
  (forall k : string * string, k <> cache_key (request_of call) ->
     _environment_for_file (after W call s) !! k = _environment_for_file s !! k
     /\ (is_Some (_settings_for_file (after W call s) !! k)
         <-> is_Some (_settings_for_file s !! k))
     /\ (is_Some (_sys_path_for_file (after W call s) !! k)
         <-> is_Some (_sys_path_for_file s !! k)))
  /\ _environment_for_file s ⊆ _environment_for_file (after W call s)
  /\ _environment_for_interpreter_path s ⊆ _environment_for_interpreter_path (after W call s)
  /\ (forall k, is_Some (_settings_for_file s !! k) ->
        is_Some (_settings_for_file (after W call s) !! k))
  /\ (forall k, is_Some (_sys_path_for_file s !! k) ->
        is_Some (_sys_path_for_file (after W call s) !! k)).
Proof.
  destruct (after_request_step call s) as [(new & _ & _ & Hmono & He & Hi & Hs & _) Hframe].
  split; [| split; [exact He | split; [exact Hi | split]]].
  - intros k Hk. destruct (Hframe k Hk) as (H1 & H2 & H3).
    rewrite H1, H2, H3. tauto.
  - intros k Hk. specialize (Hmono (SettingsResolved k)). simpl in Hmono.
    rewrite !bool_decide_eq_true in Hmono. auto.
  - intros k [sp Hk]. exists sp. apply (lookup_weaken _ _ _ _ Hk Hs).
Qed.

End MoreCalls.

Lemma get_doc_joins_docstrings_witness :
  snd (_GetDoc Sample.typed Sample.request __init__)
  = Ret (DetailedInfo ("Adds." +:+ newline +:+ "---" +:+ newline)).
Proof.
  destruct (get_jedi_script_returns Sample.typed Sample.request __init__
              Sample.session_at_cursor) as (s1 & E & _);
    [vm_compute; reflexivity |].
  destruct (get_doc_joins_docstrings _ _ _ _ _ E) as (_ & Hjoin & _).
  rewrite Hjoin; [reflexivity | vm_compute; discriminate].
Defined.

(** ** Caches filled ahead *)

Section Ready.

Variable W : World.

(** With the caches of its request filled, a call leaves the state alone
    and raises, if at all, to say that it found nothing, or with the
    [TypeError] of a go-to response. *)
Lemma warm_call (call : Call) (s : Completer) (environment : Environment)
    (search_path : list string) :
  warm s (request_of call) environment search_path ->
  after W call s = s
  /\ (forall e, exception_of W call s = Some e ->
        e = TypeError
        \/ exists message, e = RuntimeError message /\ In message nothing_found).
Proof.
  intros Hwarm.
  pose proof (get_jedi_script_hit W _ _ _ _ Hwarm) as Hscript.
  assert (Hbuild : forall (definitions : list BaseDefinition) (e : exn),
             raised (answer (_BuildGoToResponse definitions)) = Some e -> e = TypeError).
  { intros definitions e. destruct (_BuildGoToResponse definitions) as [r | e0] eqn:E;
      [discriminate |].
    intros [= <-]. apply (build_go_to_response_error _ _ E). }
  destruct call as [rd | rd | fuel rd | rd | rd | rd | rd]; simpl in *.
  - destruct Hwarm as [He Hs]. unfold OnFileReadyToParse.
    rewrite (bind_run _ _ _ _ _ (environment_for_request_hit W _ _ _ He)).
    rewrite (bind_run _ _ _ _ _ (sys_path_for_file_hit W _ _ _ _ Hs)).
    split; [reflexivity | discriminate].
  - unfold ComputeCandidatesInner. rewrite (bind_run _ _ _ _ _ Hscript).
    split; [reflexivity | discriminate].
  - rewrite (goto_definition_run W fuel _ _ _ _ Hscript). split; [reflexivity |].
    cbn [snd]. destruct (rounds _ _ _ _) as [[| d l] |]; try discriminate.
    + intros e [= <-]. right. eexists. split; [reflexivity |]. simpl. auto.
    + intros e He. left. apply (Hbuild _ _ He).
  - unfold _GoToType. rewrite (bind_run _ _ _ _ _ Hscript).
    destruct (goto_definitions W _) as [| d l]; cbn [fst snd lift raise];
      (split; [reflexivity |]).
    + intros e [= <-]. right. eexists. split; [reflexivity |]. simpl. auto.
    + intros e He. left. apply (Hbuild _ _ He).
  - unfold _GoToReferences. rewrite (bind_run _ _ _ _ _ Hscript).
    destruct (usages W _) as [| d l]; cbn [fst snd lift raise];
      (split; [reflexivity |]).
    + intros e [= <-]. right. eexists. split; [reflexivity |]. simpl. auto.
    + intros e He. left. apply (Hbuild _ _ He).
  - unfold _GetType. rewrite (bind_run _ _ _ _ _ Hscript). cbv zeta.
    destruct (truthy _); simpl; (split; [reflexivity |]); try discriminate.
    intros e [= <-]. right. eexists. split; [reflexivity |]. simpl. auto.
  - unfold _GetDoc. rewrite (bind_run _ _ _ _ _ Hscript). cbv zeta.
    destruct (truthy _); simpl; (split; [reflexivity |]); try discriminate.
    intros e [= <-]. right. eexists. split; [reflexivity |]. simpl. auto 6.
Qed.

(** Filled caches stay filled. *)
Lemma warm_evolves (s s1 : Completer) (rd : RequestData) (environment : Environment)
    (search_path : list string) :
  warm s rd environment search_path -> evolves s s1 ->
  warm s1 rd environment search_path.
Proof.
  intros [He Hs] (new & _ & _ & _ & Hef & _ & Hsf & _). split.
  - apply (lookup_weaken _ _ _ _ He Hef).
  - apply (lookup_weaken _ _ _ _ Hs Hsf).
Qed.

(** X16.  When [OnFileReadyToParse] returns, it leaves the state that
    building the session of the request leaves, and the caches of the
    request are filled: building the session again is answered from them.
    From then on, whatever calls have been served in between, a call for
    that request leaves the state exactly as it finds it, and it never
    raises because of the interpreter: it can only raise to say that it
    found nothing, or with the [TypeError] of a go-to response. *)
Theorem file_ready_fills_the_caches (rd : RequestData) (s s1 : Completer) :
  OnFileReadyToParse W rd s = (s1, Ret tt) ->
  (exists script : Script,
      _GetJediScript W rd s = (s1, Ret script)
      /\ _GetJediScript W rd s1 = (s1, Ret script))
  /\ (forall (calls : list Call) (call : Call),
        request_of call = rd ->
        after W call (after_all W calls s1) = after_all W calls s1
        /\ (forall e, exception_of W call (after_all W calls s1) = Some e ->
              e = TypeError
              \/ exists message, e = RuntimeError message /\ In message nothing_found)).
Proof.
  intros Hready. unfold OnFileReadyToParse in Hready.
  apply bind_inv in Hready as (sa & environment & Henv & Hrest).
  apply bind_inv in Hrest as (sb & sp & Hsys & Hfin). injection Hfin as ->.
  assert (Hscript : _GetJediScript W rd s
                    = (s1, Ret (mkScript (contents rd) (Some (line_num rd))
                                  (Some (start_codepoint rd - 1)%Z) (Some (filepath rd))
                                  sp environment))).
  { unfold _GetJediScript.
    rewrite (bind_run _ _ _ _ _ Henv), (bind_run _ _ _ _ _ Hsys). reflexivity. }
  destruct (get_jedi_script_warm W _ _ _ _ Hscript) as [Hwarm _]. simpl in Hwarm.
  split.
  - eexists. split; [exact Hscript |]. apply (get_jedi_script_hit W _ _ _ _ Hwarm).
  - intros calls call <-.
    apply (warm_call call _ environment sp).
    apply (warm_evolves s1); [exact Hwarm | apply after_all_evolves].
Qed.

(** X17.  Columns go out one-based and come back zero-based: a request
    made at the path, line and column of a location that a go-to response
    reports for a definition opens its session at the path, the line and
    the column of that definition. *)
Theorem reported_position_round_trip (definitions : list BaseDefinition)
    (r : Response) (i : nat) (d : BaseDefinition) (g : GoTo) (rd : RequestData)
    (s s1 : Completer) (script : Script) :
  _BuildGoToResponse definitions = Ok r ->
  definitions !! i = Some d ->
  locations r !! i = Some g ->
  Some (filepath rd) = goto_filepath g ->
  Some (line_num rd) = goto_line_num g ->
  start_codepoint rd = goto_column_num g ->
  _GetJediScript W rd s = (s1, Ret script) ->
  script_path script = module_path d
  /\ script_line script = line d
  /\ script_column script = column d.
Proof.
  intros Hr Hd Hg Hpath Hline Hcol Hscript.
  destruct (get_jedi_script_warm W _ _ _ _ Hscript) as [_ ->]. simpl.
  destruct (build_go_to_response_ok _ _ Hr) as [Hall _].
  destruct (Forall2_lookup_lr _ _ _ _ _ _ Hall Hd Hg) as (Hp & Hl & Hc & _).
  rewrite <- Hp, <- Hpath, Hline, Hl, Hc, Hcol. repeat split.
Qed.

End Ready.

Lemma file_ready_fills_the_caches_witness :
  exists s1 : Completer,
    OnFileReadyToParse Sample.typed Sample.request __init__ = (s1, Ret tt)
    /\ after Sample.typed (GetType Sample.request)
         (after_all Sample.typed [GetDoc Sample.request_elsewhere] s1)
       = after_all Sample.typed [GetDoc Sample.request_elsewhere] s1
    /\ _GetJediScript Sample.typed Sample.request s1
       = (s1, Ret Sample.session_at_cursor).
Proof.
  destruct (OnFileReadyToParse Sample.typed Sample.request __init__) as [s1 o] eqn:E.
  assert (Ho : o = Ret tt).
  { change o with (snd (s1, o)). rewrite <- E. vm_compute. reflexivity. }
  subst o. exists s1. split; [reflexivity |].
  destruct (file_ready_fills_the_caches _ _ _ _ E) as [(script & Hfirst & Hagain) Hcalls].
  split; [apply (Hcalls [GetDoc Sample.request_elsewhere] (GetType Sample.request)
                  eq_refl) |].
  assert (Hs : script = Sample.session_at_cursor).
  { assert (H : snd (_GetJediScript Sample.typed Sample.request __init__) = Ret script)
      by (rewrite Hfirst; reflexivity).
    vm_compute in H. injection H as <-. reflexivity. }
  rewrite <- Hs. exact Hagain.
Defined.

Lemma reported_position_round_trip_witness :
  exists (s1 : Completer) (script : Script),
    _GetJediScript Sample.quiet Sample.request_at_f __init__ = (s1, Ret script)
    /\ script_path script = module_path Sample.f_
    /\ script_line script = line Sample.f_
    /\ script_column script = column Sample.f_.
Proof.
  destruct (get_jedi_script_returns Sample.quiet Sample.request_at_f __init__
              (mkScript "x" (Some 3%Z) (Some 4%Z) (Some "main.py") ["/usr/lib/python3"]
                 (mkEnv 0 Sample.python3))) as (s1 & E & _);
    [vm_compute; reflexivity |].
  eexists s1, _. split; [exact E |].
  apply (reported_position_round_trip Sample.quiet [Sample.f_]
           (GoToOne (mkGoTo (Some "main.py") (Some 3%Z) 5 None)) 0 Sample.f_
           (mkGoTo (Some "main.py") (Some 3%Z) 5 None) Sample.request_at_f __init__ s1 _);
    try reflexivity. exact E.
Defined.

(** ** Debug information *)
Lemma bind_out_of_fuel {A B} (m : M A) (k : A -> M B) (s s' : Completer) :
  m s = (s', OutOfFuel) -> bind m k s = (s', OutOfFuel).
Proof. intros H. unfold bind. rewrite H. reflexivity. Qed.

(** X18.  [DebugInfo] resolves the environment and the search path of its
    request as a query does: it leaves the state that building the session
    leaves, it raises exactly when building the session raises, with the
    same error, and otherwise reports, in this order, the executable of the
    request's environment, its search path, the environment's version
    numbers joined by dots, and the versions of Jedi and Parso. *)
Theorem debug_info_resolves_like_a_query (W : World) (V : Versions) (rd : RequestData)
    (s : Completer) :
  fst (DebugInfo W V rd s) = fst (_GetJediScript W rd s)
  /\ (forall e : exn,
        snd (DebugInfo W V rd s) = Raise e <-> snd (_GetJediScript W rd s) = Raise e)
  /\ (forall script : Script,
        snd (_GetJediScript W rd s) = Ret script ->
        snd (DebugInfo W V rd s)
        = Ret (mkDebugInfo "Python"
                 [mkItem "Python interpreter" (executable (script_environment script));
                  mkItem "Python path" (str_of_list V (script_sys_path script));
                  mkItem "Python version"
                    (join "." (map str_of_int
                                 (info_version (env_info (script_environment script)))));
                  mkItem "Jedi version" (jedi_version V);
                  mkItem "Parso version" (parso_version V)])).
Proof.
  destruct (_EnvironmentForRequest W rd s) as [s1 [environment | e |]] eqn:E;
    unfold DebugInfo, _GetJediScript.
  - rewrite !(bind_run _ _ _ _ _ E). cbv zeta.
    destruct (_SysPathForFile W rd environment s1) as [s2 [sp | e |]] eqn:E2.
    + rewrite !(bind_run _ _ _ _ _ E2). cbn.
      split; [reflexivity |]. split; [intros e'; split; discriminate |].
      intros script [= <-]. reflexivity.
    + rewrite !(bind_raise _ _ _ _ _ E2). cbn.
      split; [reflexivity |]. split; [| discriminate].
      intros e'; split; intros [= <-]; reflexivity.
    + rewrite !(bind_out_of_fuel _ _ _ _ E2). cbn.
      split; [reflexivity |]. split; [intros e'; split; discriminate | discriminate].
  - rewrite !(bind_raise _ _ _ _ _ E). cbn.
    split; [reflexivity |]. split; [| discriminate].
    intros e'; split; intros [= <-]; reflexivity.
  - rewrite !(bind_out_of_fuel _ _ _ _ E). cbn.
    split; [reflexivity |]. split; [intros e'; split; discriminate | discriminate].
Qed.

Example debug_info_of_the_sample :
  snd (DebugInfo Sample.quiet Sample.versions Sample.request __init__)
  = Ret (mkDebugInfo "Python"
           [mkItem "Python interpreter" "/usr/bin/python3";
            mkItem "Python path" "['/usr/lib/python3']";
            mkItem "Python version" "3.7.0";
            mkItem "Jedi version" "0.13.3";
            mkItem "Parso version" "0.4.0"]).
Proof. vm_compute. reflexivity. Qed.

(** ** One environment for the files of one interpreter *)

(** Every call is made of the two cached resolutions and of steps that
    leave the state alone. *)
Section Generic.
Variable W : World.
Variable R : Completer -> Completer -> Prop.
Hypothesis R_refl : forall s, R s s.
Hypothesis R_trans : forall s s1 s2, R s s1 -> R s1 s2 -> R s s2.
Hypothesis R_environment : forall rd, respects R (_EnvironmentForRequest W rd).
Hypothesis R_sys_path : forall rd environment, respects R (_SysPathForFile W rd environment).

Ltac compose_generic :=
  repeat first
    [ apply respects_ret; exact R_refl
    | apply respects_raise; exact R_refl
    | apply respects_out_of_fuel; exact R_refl
    | apply respects_lift; exact R_refl
    | apply R_environment
    | apply R_sys_path
    | apply respects_bind; [exact R_trans | | intros ?]
    | progress cbv zeta
    | match goal with
      | |- respects _ (match ?x with _ => _ end) => destruct x
      | |- respects _ (if ?x then _ else _) => destruct x
      end ].

Lemma generic_script (rd : RequestData) : respects R (_GetJediScript W rd).
Proof. unfold _GetJediScript. compose_generic. Qed.

Lemma generic_same_name (rd : RequestData) (d : BaseDefinition) :
  respects R (_GoToDefinitionsWithSameName W rd d).
Proof.
  unfold _GoToDefinitionsWithSameName, _GetJediScriptForDefinition. compose_generic.
Qed.

Lemma generic_traverse (rd : RequestData) (previous definitions : list BaseDefinition)
    (keep : bool) :
  respects R (traverse W rd previous definitions keep).
Proof.
  revert definitions keep.
  induction previous as [| d rest IH]; intros definitions keep; simpl.
  - compose_generic.
  - apply respects_bind; [exact R_trans | apply generic_same_name |].
    intros l. destruct l; apply IH.
Qed.

Lemma generic_chase (rd : RequestData) (fuel : nat) (definitions : list BaseDefinition)
    (keep : bool) :
  respects R (chase W fuel rd definitions keep).
Proof.
  revert definitions keep.
  induction fuel as [| fuel IH]; intros definitions keep; simpl; destruct keep;
    try (compose_generic; fail).
  apply respects_bind; [exact R_trans | apply generic_traverse | intros round; apply IH].
Qed.

(** A reflexive and transitive relation on states that the two cached
    resolutions respect is respected by every call. *)
Lemma calls_respect (call : Call) (s : Completer) : R s (after W call s).
Proof.
  destruct call as [rd | rd | fuel rd | rd | rd | rd | rd]; simpl.
  - unfold OnFileReadyToParse. compose_generic.
  - unfold ComputeCandidatesInner.
    apply respects_bind; [exact R_trans | apply generic_script | intros ?].
    compose_generic.
  - unfold _GoToDefinition.
    apply respects_bind; [exact R_trans | apply generic_script | intros ?].
    apply respects_bind; [exact R_trans | apply generic_chase | intros ?].
    compose_generic.
  - unfold _GoToType.
    apply respects_bind; [exact R_trans | apply generic_script | intros ?].
    compose_generic.
  - unfold _GoToReferences.
    apply respects_bind; [exact R_trans | apply generic_script | intros ?].
    compose_generic.
  - unfold _GetType.
    apply respects_bind; [exact R_trans | apply generic_script | intros ?].
    compose_generic.
  - unfold _GetDoc.
    apply respects_bind; [exact R_trans | apply generic_script | intros ?].
    compose_generic.
Qed.

Lemma all_calls_respect (calls : list Call) (s : Completer) : R s (after_all W calls s).
Proof.
  revert s. induction calls as [| call rest IH]; intros s; simpl.
  - apply R_refl.
  - eapply R_trans; [apply calls_respect | apply IH].
Qed.

End Generic.

Section Following.
Variable W : World.

Lemma resolve_interpreter_path_outcome (path : option string) (s s' : Completer) :
  snd (resolve_interpreter_path W path s) = snd (resolve_interpreter_path W path s').
Proof.
  unfold resolve_interpreter_path.
  destruct path as [p |]; [| reflexivity].
  destruct (truthy p); [| reflexivity].
  destruct (FindExecutable W (ExpandVariablesInPath W p)) as [r |]; [| reflexivity].
  destruct (truthy r); reflexivity.
Qed.

Lemma following_transport (s s1 : Completer) :
  (forall k e, _environment_for_file s1 !! k = Some e ->
               _environment_for_file s !! k = Some e) ->
  (forall k settings, _settings_for_file s !! k = Some settings ->
     exists settings', _settings_for_file s1 !! k = Some settings'
                       /\ interpreter_path settings' = interpreter_path settings) ->
  _environment_for_interpreter_path s ⊆ _environment_for_interpreter_path s1 ->
  keeps_following W s s1.
Proof.
  intros Henv Hsettings Hsub J k e Hk.
  destruct (J k e (Henv k e Hk)) as (settings & key & Hst & Hkey & He).
  destruct (Hsettings k settings Hst) as (settings' & Hst' & Hpath).
  exists settings', key. split; [exact Hst' |]. split.
  - rewrite Hpath, (resolve_interpreter_path_outcome _ s1 s). exact Hkey.
  - apply (lookup_weaken _ _ _ _ He Hsub).
Qed.

Lemma keeps_following_refl (s : Completer) : keeps_following W s s.
Proof. intros J. exact J. Qed.

Lemma keeps_following_trans (s s1 s2 : Completer) :
  keeps_following W s s1 -> keeps_following W s1 s2 -> keeps_following W s s2.
Proof. unfold keeps_following. auto. Qed.

Lemma settings_for_request_following (rd : RequestData) :
  respects (keeps_following W) (_SettingsForRequest W rd).
Proof.
  intros s. rewrite settings_for_request_run.
  destruct (_settings_for_file s !! cache_key rd) eqn:E; [apply keeps_following_refl |].
  apply following_transport; simpl; auto.
  intros k settings Hk. exists settings. split; [| reflexivity].
  rewrite lookup_insert_ne; [exact Hk |]. intros <-. congruence.
Qed.

Lemma environment_for_interpreter_path_following (path : option string) :
  respects (keeps_following W) (_EnvironmentForInterpreterPath W path).
Proof.
  intros s.
  destruct (environment_for_interpreter_path_frame W path s) as (Hst & He & _).
  destruct (environment_for_interpreter_path_step W path (EmptyString, EmptyString) s)
    as [(new & _ & _ & _ & _ & Hsub & _) _].
  apply following_transport.
  - intros k e. rewrite He. auto.
  - intros k settings Hk. exists settings. rewrite Hst. auto.
  - exact Hsub.
Qed.

Lemma environment_for_request_following (rd : RequestData) :
  respects (keeps_following W) (_EnvironmentForRequest W rd).
Proof.
  intros s J. unfold _EnvironmentForRequest, bind at 1, get. simpl. fold (cache_key rd).
  destruct (_environment_for_file s !! cache_key rd) eqn:E; [exact J |].
  pose proof (settings_for_request_following rd s J) as J2.
  destruct (settings_for_request_total W rd s) as (s2 & settings & Hrun & Hst & _).
  rewrite (bind_run _ _ _ _ _ Hrun). rewrite Hrun in J2. simpl in J2.
  pose proof (environment_for_interpreter_path_following (interpreter_path settings) s2 J2)
    as J3.
  destruct (environment_for_interpreter_path_frame W (interpreter_path settings) s2)
    as (Hst3 & _).
  destruct (resolve_interpreter_path_cases W (interpreter_path settings) s2)
    as [[key Hkey] | [e He]].
  - destruct (environment_for_interpreter_path_cached W _ _ _ Hkey)
      as (s3 & environment & Hrun3 & Hcached & _).
    rewrite Hrun3 in *. simpl in J3, Hst3.
    rewrite (bind_run _ _ _ _ _ Hrun3). unfold bind, modify, ret. simpl.
    intros k e Hk. simpl in *.
    destruct (decide (cache_key rd = k)) as [<- | Hne].
    + rewrite lookup_insert_eq in Hk. injection Hk as <-.
      exists settings, key. split; [rewrite Hst3; exact Hst |]. split; [| exact Hcached].
      rewrite (resolve_interpreter_path_outcome _ _ s2), Hkey. reflexivity.
    + rewrite lookup_insert_ne in Hk by exact Hne.
      destruct (J3 k e Hk) as (st & ky & H1 & H2 & H3).
      exists st, ky. split; [exact H1 |]. split; [| exact H3].
      rewrite (resolve_interpreter_path_outcome _ _ s3). exact H2.
  - rewrite (environment_for_interpreter_path_raise W _ _ _ He) in *.
    rewrite (bind_raise _ _ s2 s2 e); [exact J3 |].
    apply environment_for_interpreter_path_raise, He.
Qed.

Lemma sys_path_for_file_following (rd : RequestData) (environment : Environment) :
  respects (keeps_following W) (_SysPathForFile W rd environment).
Proof.
  intros s. unfold _SysPathForFile, bind at 1, get. simpl. fold (cache_key rd).
  destruct (_sys_path_for_file s !! cache_key rd) eqn:E; [apply keeps_following_refl |].
  eapply keeps_following_trans; [apply (settings_for_request_following rd s) |].
  unfold _GetSysPath.
  destruct (settings_for_request_total W rd s) as (s2 & cached & Hrun & Hst & _).
  unfold bind at 1. unfold bind at 1. rewrite Hrun. simpl.
  apply following_transport.
  - destruct (sys_path cached); unfold bind, modify, ret; simpl;
      destruct (ModuleForSourceFile W (filepath rd)) as [m |];
      try destruct (PythonSysPathHook m); simpl; auto.
  - intros k settings Hk.
    destruct (sys_path cached) eqn:Ec; unfold bind, modify, ret; simpl;
      destruct (ModuleForSourceFile W (filepath rd)) as [m |];
      try destruct (PythonSysPathHook m); simpl; eauto.
    all: destruct (decide (cache_key rd = k)) as [<- | Hne];
      [rewrite lookup_insert_eq; rewrite Hst in Hk; injection Hk as <-; eauto
      | rewrite lookup_insert_ne by exact Hne; eauto].
  - destruct (sys_path cached); unfold bind, modify, ret; simpl;
      destruct (ModuleForSourceFile W (filepath rd)) as [m |];
      try destruct (PythonSysPathHook m); simpl; reflexivity.
Qed.

Lemma init_following : environments_follow_settings W __init__.
Proof. intros k e H. simpl in H. rewrite lookup_empty in H. discriminate. Qed.

End Following.

(** X19.  In every state a completer reaches from [__init__], two requests
    that both have a cached environment share it, the very same object,
    when the interpreter paths of their cached settings resolve to the same
    normalised path; and they hold objects with different identities when
    the paths resolve differently. *)
Theorem files_share_the_environment_of_their_interpreter (W : World)
    (calls : list Call) (k1 k2 : string * string) (settings1 settings2 : Settings)
    (e1 e2 : Environment) (key1 key2 : option string) :
  _settings_for_file (after_all W calls __init__) !! k1 = Some settings1 ->
  _settings_for_file (after_all W calls __init__) !! k2 = Some settings2 ->
  _environment_for_file (after_all W calls __init__) !! k1 = Some e1 ->
  _environment_for_file (after_all W calls __init__) !! k2 = Some e2 ->
  snd (resolve_interpreter_path W (interpreter_path settings1) __init__) = Ret key1 ->
  snd (resolve_interpreter_path W (interpreter_path settings2) __init__) = Ret key2 ->
  (key1 = key2 -> e1 = e2) /\ (key1 <> key2 -> env_id e1 <> env_id e2).
Proof.
  intros Hs1 Hs2 He1 He2 Hk1 Hk2.
  pose proof (all_calls_respect W (keeps_following W) (keeps_following_refl W)
                (keeps_following_trans W) (environment_for_request_following W)
                (sys_path_for_file_following W) calls __init__ (init_following W)) as J.
  pose proof (after_all_identities W calls __init__ init_identities) as [_ Hinj].
  set (s := after_all W calls __init__) in *.
  destruct (J k1 e1 He1) as (st1 & ky1 & Hst1 & Hky1 & Hc1).
  destruct (J k2 e2 He2) as (st2 & ky2 & Hst2 & Hky2 & Hc2).
  rewrite Hs1 in Hst1. injection Hst1 as <-.
  rewrite Hs2 in Hst2. injection Hst2 as <-.
  rewrite (resolve_interpreter_path_outcome W _ s __init__), Hk1 in Hky1.
  rewrite (resolve_interpreter_path_outcome W _ s __init__), Hk2 in Hky2.
  injection Hky1 as <-. injection Hky2 as <-.
  split.
  - intros <-. congruence.
  - intros Hne Hid. apply Hne. apply (Hinj _ _ _ _ Hc1 Hc2 Hid).
Qed.

(** Two files under one extra-conf module: one environment object. *)
Lemma files_share_the_environment_of_their_interpreter_witness :
  _environment_for_file
    (after_all Sample.configured
       [GoToType Sample.request; GetDoc Sample.request_elsewhere] __init__)
  !! cache_key Sample.request
  = _environment_for_file
      (after_all Sample.configured
         [GoToType Sample.request; GetDoc Sample.request_elsewhere] __init__)
    !! cache_key Sample.request_elsewhere.
Proof.
  destruct (_environment_for_file
              (after_all Sample.configured
                 [GoToType Sample.request; GetDoc Sample.request_elsewhere] __init__)
            !! cache_key Sample.request) as [e1 |] eqn:H1;
    [| vm_compute in H1; discriminate].
  destruct (_environment_for_file
              (after_all Sample.configured
                 [GoToType Sample.request; GetDoc Sample.request_elsewhere] __init__)
            !! cache_key Sample.request_elsewhere) as [e2 |] eqn:H2;
    [| vm_compute in H2; discriminate].
  f_equal.
  apply (files_share_the_environment_of_their_interpreter Sample.configured
           [GoToType Sample.request; GetDoc Sample.request_elsewhere]
           (cache_key Sample.request) (cache_key Sample.request_elsewhere)
           (mkSettings (Some "python3") (Some ["/srv/lib"; "/usr/lib/python3"]))
           (mkSettings (Some "python3") (Some ["/srv/lib"; "/usr/lib/python3"]))
           e1 e2 (Some "/usr/bin/python3") (Some "/usr/bin/python3"));
    first [exact H1 | exact H2 | vm_compute; reflexivity].
Defined.
